(** * EditableMixin: rich-text inline-media reconciliation

    A shallow embedding of [praw/models/reddit/mixins/editable.py]:
    [MEDIA_TYPE_MAPPING], [EditableMixin._replace_richtext_links] and the
    request sequence of [EditableMixin.edit].

    The rich-text document ([richtext_json["document"]]) is a list of
    block elements updated in place by index; the reconciler is a
    state-and-exception computation over that list.  A raised exception
    does not roll back the writes made before it, as in Python. *)

From Stdlib Require Import Ascii.
From stdpp Require Import base gmap strings list.

Open Scope string_scope.

(** ** Python values used by the reconciler *)

(** The exceptions the reconciler can raise. *)
Inductive exn :=
  | KeyError (key : string)          (** [d[key]] on a missing key *)
  | AssertionError (msg : string)    (** a failed [assert] *)
  | IndexError                       (** [l[1]] past the end *)
  | TypeError                        (** iterating over [None] *)
  | ValueError.                      (** [str.format] on a malformed format string *)

Inductive result (A : Type) :=
  | Ok (a : A)
  | Err (e : exn).
Arguments Ok {A} a.
Arguments Err {A} e.

Global Instance result_ret : MRet result := fun _ a => Ok a.
Global Instance result_bind : MBind result := fun _ _ f r =>
  match r with Ok a => f a | Err e => Err e end.

(** [d[key]] where [d.get(key)] is [v]. *)
Definition getitem {A} (key : string) (v : option A) : result A :=
  match v with Some a => Ok a | None => Err (KeyError key) end.

(** An inline item of a block ([{"e": ..., "u": ..., "t": ...}]); each
    field is the value of [item.get(key)]. *)
Record item := mk_item {
  item_e : option string;
  item_u : option string;
  item_t : option string
}.

(** The ["c"] field of a block element: a literal string (an inline
    media leaf), a list of inline items, or absent. *)
Inductive content :=
  | CStr (s : string)
  | CList (items : list item)
  | CNone.

(** A block element ([{"e": ..., "id": ..., "c": ...}]). *)
Record element := mk_element {
  el_e : option string;
  el_id : option string;
  el_c : content
}.

(** [value["e"]] of a media descriptor, as [value.get("e")]. *)
Abbreviation descriptor := (option string) (only parsing).

(** The object being edited: [hasattr(self, "media_metadata")] is
    [media_metadata <> None]. *)
Record editable := mk_editable {
  media_metadata : option (gmap string descriptor);
  fullname : string;
  validate_on_submit : bool
}.

(** ** [MEDIA_TYPE_MAPPING] *)

Definition MEDIA_TYPE_MAPPING (k : string) : option string :=
  if String.eqb k "Image" then Some "img"
  else if String.eqb k "RedditVideo" then Some "video"
  else if String.eqb k "AnimatedImage" then Some "gif"
  else None.

(** ** String helpers: [str.split] and [re.split(r"[./]", _)] *)

(** Prepend a character to the first chunk of a split. *)
Definition cons_head (c : ascii) (l : list string) : list string :=
  match l with
  | [] => [String c EmptyString]
  | x :: xs => String c x :: xs
  end.

(** [s.split(sep)] for a non-empty [sep]: scan left to right, and after a
    match skip the remaining [length sep - 1] characters of it. *)
Fixpoint split_go (sep : string) (skip : nat) (s : string) : list string :=
  match s with
  | EmptyString => [EmptyString]
  | String c rest =>
      match skip with
      | S k => split_go sep k rest
      | O =>
          if String.prefix sep s
          then EmptyString :: split_go sep (String.length sep - 1) rest
          else cons_head c (split_go sep 0 rest)
      end
  end.

Definition str_split (sep s : string) : list string := split_go sep 0 s.

(** Split on every character satisfying [p]: [s.split("?")] and
    [re.split(r"[./]", s)] (a one-character class never matches empty). *)
Fixpoint split_chars (p : ascii -> bool) (s : string) : list string :=
  match s with
  | EmptyString => [EmptyString]
  | String c rest =>
      if p c then EmptyString :: split_chars p rest
      else cons_head c (split_chars p rest)
  end.

Definition is_qmark (c : ascii) : bool := Ascii.eqb c "?"%char.
Definition is_dot_or_slash (c : ascii) : bool :=
  Ascii.eqb c "."%char || Ascii.eqb c "/"%char.

(** [l[i]] on a Python list. *)
Definition list_index {A} (i : nat) (l : list A) : result A :=
  match l !! i with Some a => Ok a | None => Err IndexError end.

(** [url.split("https://")[1].split("?")[0]] *)
Definition strip_url (u : string) : result string :=
  after ← list_index 1 (str_split "https://" u);
  Ok (default EmptyString (head (split_chars is_qmark after))).

(** [re.split(r"[./]", url)] *)
Definition url_tokens (url : string) : list string :=
  split_chars is_dot_or_slash url.

(** [s in t] for strings. *)
Fixpoint contains (sub s : string) : bool :=
  String.prefix sub s ||
  match s with EmptyString => false | String _ rest => contains sub rest end.

(** ** The reconciler's computations: state (the document) and exceptions *)

Abbreviation document := (list element) (only parsing).

(** A computation over [richtext_json["document"]]: an exception keeps the
    writes already made. *)
Definition M (A : Type) : Type := list element -> result A * list element.

Global Instance M_ret : MRet M := fun _ a d => (Ok a, d).
Global Instance M_bind : MBind M := fun _ _ f m d =>
  match m d with
  | (Ok a, d') => f a d'
  | (Err e, d') => (Err e, d')
  end.

Definition raise {A} (e : exn) : M A := fun d => (Err e, d).
Definition lift {A} (r : result A) : M A := fun d => (r, d).
Definition get_document : M (list element) := fun d => (Ok d, d).
(** [richtext_json["document"][index] = el] *)
Definition set_document (index : nat) (el : element) : M unit :=
  fun d => (Ok tt, <[index := el]> d).

(** [for x in l: body(x)] *)
Fixpoint for_each {A} (body : A -> M unit) (l : list A) : M unit :=
  match l with
  | [] => mret tt
  | x :: l' => body x ;; for_each body l'
  end.

(** [for index, x in enumerate(l, start): body(index, x)] *)
Fixpoint for_enumerate {A} (body : nat -> A -> M unit) (start : nat)
    (l : list A) : M unit :=
  match l with
  | [] => mret tt
  | x :: l' => body start x ;; for_enumerate body (S start) l'
  end.

(** ** [EditableMixin._replace_richtext_links] *)

(** The assertion message of line 33. *)
Definition schema_msg : string :=
  "Unexpected richtext JSON schema. Please file a bug report with PRAW.".

(** Lines 26-28: [parsed_media_types[media_id] = MEDIA_TYPE_MAPPING[value["e"]]]
    for every item of [self.media_metadata]. *)
Definition parse_media_type_step (acc : result (gmap string string))
    (item : string * descriptor) : result (gmap string string) :=
  let '(media_id, value) := item in
  parsed ← acc;
  e ← getitem "e" value;
  kind ← getitem e (MEDIA_TYPE_MAPPING e);
  Ok (<[media_id := kind]> parsed).

Definition parse_media_types (media_metadata : gmap string descriptor)
    : result (gmap string string) :=
  fold_left parse_media_type_step (map_to_list media_metadata) (Ok ∅).

(** [ids.intersection(re.split(r"[./]", url))], with [ids = set(parsed)],
    listed in token order. *)
Definition matched_ids (parsed : gmap string string) (url : string) : list string :=
  filter (fun t => is_Some (parsed !! t)) (url_tokens url).

Definition leaf_kinds : list string := ["gif"; "img"; "video"].

Section Reconcile.

(** [set.pop()]: some element of a non-empty set.  CPython's choice depends
    on string hashes, so it is left open. *)
Variable set_pop : list string -> string.

(** Lines 39-55, for one inline item of the block at [index]. *)
Definition replace_link (parsed : gmap string string) (index : nat)
    (item : item) : M unit :=
  if decide (item_e item = Some "link") then
    u ← lift (getitem "u" (item_u item));
    url ← lift (strip_url u);
    match matched_ids parsed url with
    | [] => mret tt
    | matched => 
        let matched_id := set_pop matched in
        kind ← lift (getitem matched_id (parsed !! matched_id));
        correct_element ←
          (if decide (item_t item <> item_u item) then
             t ← lift (getitem "t" (item_t item));
             mret (mk_element (Some kind) (Some matched_id) (CStr t))
           else mret (mk_element (Some kind) (Some matched_id) CNone));
        set_document index correct_element
    end
  else mret tt.

(** Lines 31-55, for the block [element] at [index]. *)
Definition replace_element (parsed : gmap string string) (index : nat)
    (element : element) : M unit :=
  match el_c element with
  | CStr _ =>
      if decide (el_e element ∈ map Some leaf_kinds) then mret tt
      else raise (AssertionError schema_msg)
  | CList items => for_each (replace_link parsed index) items
  | CNone => raise TypeError
  end.

Definition _replace_richtext_links (self : editable) : M unit :=
  match media_metadata self with
  | None => mret tt
  | Some mm =>
      parsed_media_types ← lift (parse_media_types mm);
      snapshot ← get_document;
      for_enumerate (replace_element parsed_media_types) 0 snapshot
  end.

End Reconcile.

(** ** [EditableMixin.edit]: the requests it issues *)

(** A [praw.models.InlineMedia] to upload. *)
Record InlineMedia := mk_inline_media { im_path : string; im_caption : option string }.

Inductive edit_body := Text (text : string) | RichtextJson (json : string).

(** The [data] of the edit request. *)
Record edit_data := mk_edit_data {
  thing_id : string;
  data_validate_on_submit : bool;
  data_body : edit_body
}.

(** The network requests of [edit], in the order they are issued. *)
Inductive request :=
  | UploadInlineMedia (media : InlineMedia)   (** [self.subreddit._upload_inline_media] *)
  | ConvertToFancypants (body : string)       (** [self.subreddit._convert_to_fancypants] *)
  | PostEdit (data : edit_data).               (** [self._reddit.post(API_PATH["edit"], ...)] *)

Section Edit.

Variable set_pop : list string -> string.
(** [INLINE_MEDIA_PATTERN.search(body)] is truthy. *)
Variable inline_media_pattern_search : string -> bool.
(** [body.format] with the placeholders as keyword arguments; it raises
    ([KeyError] for a placeholder without a value, [ValueError] for a stray
    brace, ...) or returns the formatted string. *)
Variable str_format : string -> list (string * string) -> result string.
(** The values returned by the two endpoints, and [json.dumps]. *)
Variable upload_inline_media : InlineMedia -> string.
Variable convert_to_fancypants : string -> list element.
Variable dumps : list element -> string.

(** Lines 111-121: the body to submit (or the exception [body.format]
    raised), the uploads made, and [is_richtext_json].  [inline_media] is
    the dict's items; an empty or absent dict is falsy.  The dict
    comprehension uploads every media before [format] is called. *)
Definition edit_prepare (body : string) (inline_media : list (string * InlineMedia))
    : result string * list request * bool :=
  let is_richtext_json := inline_media_pattern_search body in
  match inline_media with
  | [] => (Ok body, [], is_richtext_json)
  | _ =>
      (str_format body (map (fun '(placeholder, media) =>
                                (placeholder, upload_inline_media media)) inline_media),
       map (fun '(_, media) => UploadInlineMedia media) inline_media,
       true)
  end.

(** Lines 107-129, up to the edit request: the requests issued and whether
    [edit] raised before returning from the post. *)
Definition edit (self : editable) (body : string) (preserve_inline_media : bool)
    (inline_media : list (string * InlineMedia)) : list request * result unit :=
  let '(body, uploads, is_richtext_json) := edit_prepare body inline_media in
  match body with
  | Err e => (uploads, Err e)
  | Ok body =>
      if is_richtext_json then
        let richtext_json := convert_to_fancypants body in
        let '(r, richtext_json) :=
          if preserve_inline_media
          then _replace_richtext_links set_pop self richtext_json
          else (Ok tt, richtext_json) in
        match r with
        | Err e => ((uploads ++ [ConvertToFancypants body])%list, Err e)
        | Ok _ =>
            (app uploads [ConvertToFancypants body;
                         PostEdit (mk_edit_data (fullname self) (validate_on_submit self)
                                     (RichtextJson (dumps richtext_json)))], Ok tt)
        end
      else
        (app uploads [PostEdit (mk_edit_data (fullname self) (validate_on_submit self)
                                 (Text body))], Ok tt)
  end.

End Edit.

(** ** Auxiliary definitions for the statements *)

(** [set.pop()] behaves as Python's: it returns a member of a non-empty set. *)
Definition pop_spec (set_pop : list string -> string) : Prop :=
  forall l, l <> [] -> set_pop l ∈ l.

(** One valid choice for [set.pop()]: the first matching token. *)
Definition pop_first (l : list string) : string := default "" (head l).

(** The canonical kind of a descriptor, [MEDIA_TYPE_MAPPING[value["e"]]]. *)
Definition mapped_kind (value : descriptor) : option string :=
  value ≫= MEDIA_TYPE_MAPPING.

(** The leaf that can replace block [blk]: [it] is a link item of [blk]
    whose stripped URL has matching ids; the leaf carries the popped id, its
    kind, and the display text as caption when it differs from the URL. *)
Definition link_leaf (set_pop : list string -> string) (parsed : gmap string string)
    (blk el : element) : Prop :=
  exists items it u url kind,
    el_c blk = CList items /\ it ∈ items /\
    item_e it = Some "link" /\ item_u it = Some u /\ strip_url u = Ok url /\
    matched_ids parsed url <> [] /\
    parsed !! set_pop (matched_ids parsed url) = Some kind /\
    el_e el = Some kind /\ el_id el = Some (set_pop (matched_ids parsed url)) /\
    ((item_t it = item_u it /\ el_c el = CNone) \/
     (exists t, item_t it = Some t /\ item_t it <> item_u it /\ el_c el = CStr t)).

(** [all(f(c) for c in s)] *)
Fixpoint string_forallb (f : ascii -> bool) (s : string) : bool :=
  match s with
  | EmptyString => true
  | String c rest => f c && string_forallb f rest
  end.

(** [s.count(c)] for a one-character [c]. *)
Fixpoint count_char (c : ascii) (s : string) : nat :=
  match s with
  | EmptyString => 0
  | String c' rest => (if Ascii.eqb c' c then 1 else 0) + count_char c rest
  end.

(** A media id with none of the separators ['.'], ['/'], ['?'] of the URL
    parsing. *)
Definition plain_media_id (id : string) : bool :=
  string_forallb (fun c => negb (is_dot_or_slash c) && negb (is_qmark c)) id.

(** The URL of an uploaded image, [https://i.redd.it/{id}?amp=1]. *)
Definition media_url (id : string) : string :=
  "https://i.redd.it/" ++ (id ++ "?amp=1").

(** The leaf that replaces block [blk], in terms of [self.media_metadata]:
    [it] is a link item of [blk]; [mid] is a token of its stripped URL and a
    key of [mm] with canonical kind [kind]; the display text is the caption
    when it differs from the URL. *)
Definition media_leaf_of (mm : gmap string descriptor) (blk el : element) : Prop :=
  exists items it u url mid kind,
    el_c blk = CList items /\ it ∈ items /\
    item_e it = Some "link" /\ item_u it = Some u /\ strip_url u = Ok url /\
    mid ∈ url_tokens url /\ mm !! mid ≫= mapped_kind = Some kind /\
    ((item_t it = item_u it /\ el = mk_element (Some kind) (Some mid) CNone) \/
     (exists t, item_t it = Some t /\ item_t it <> item_u it /\
                el = mk_element (Some kind) (Some mid) (CStr t))).

(** ** Frame of the reconciler's writes *)

(** [frame P d d']: [d'] is [d] with some entries overwritten, each by an
    element [el] at an index [i] with [P i el]. *)
Definition frame (P : nat -> element -> Prop) (d d' : list element) : Prop :=
  length d' = length d /\
  forall i, d' !! i = d !! i \/ exists el, d' !! i = Some el /\ P i el.

(** A computation whose only writes satisfy [P], whatever it returns. *)
Definition preserves {A} (P : nat -> element -> Prop) (m : M A) : Prop :=
  forall d, frame P d (snd (m d)).

(** A computation whose outcome does not read the document. *)
Definition outcome_indep {A} (m : M A) : Prop :=
  forall d1 d2, fst (m d1) = fst (m d2).

(** ** Sample inputs *)

Definition sample_media_metadata : gmap string descriptor :=
  {["abc" := Some "Image"]}.

Definition sample_self : editable :=
  mk_editable (Some sample_media_metadata) "t1_abc" true.

(** A paragraph whose only item links to the uploaded image [abc]. *)
Definition sample_link_block : element :=
  mk_element (Some "par") None
    (CList [mk_item (Some "link") (Some (media_url "abc")) (Some "caption text")]).

(** A paragraph with a plain-text item only. *)
Definition sample_text_block : element :=
  mk_element (Some "par") None (CList [mk_item (Some "text") None (Some "hello")]).

(** A paragraph with a link to a page outside the media host. *)
Definition sample_page_block : element :=
  mk_element (Some "par") None
    (CList [mk_item (Some "link") (Some "https://example.com/page?x=1") (Some "page")]).

(** A string-content block that is not an inline media leaf. *)
Definition sample_bad_leaf : element := mk_element (Some "par") None (CStr "text").

(** An inline media leaf already in final form. *)
Definition sample_gif_leaf : element := mk_element (Some "gif") (Some "abc") (CStr "cap").

(** ** [INLINE_MEDIA_PATTERN] *)

(** The regular expressions the pattern is built from. *)
Inductive regex :=
  | REmpty                               (** the empty pattern *)
  | RClass (p : ascii -> bool)           (** one character of a class *)
  | RStar (p : ascii -> bool)            (** [p*] or [p*?] over a class *)
  | RSeq (r1 r2 : regex)
  | RAlt (r1 r2 : regex)                 (** [r1|r2] *)
  | ROpt (r : regex)                     (** [r?] *)
  | RNotFollowedBy (lit : string).       (** [(?!lit)] *)

(** The literal text [s]. *)
Fixpoint rlit (s : string) : regex :=
  match s with
  | EmptyString => REmpty
  | String c s' => RSeq (RClass (fun x => Ascii.eqb x c)) (rlit s')
  end.

(** [.] without [re.DOTALL]: any character but a newline. *)
Definition py_dot (c : ascii) : bool := negb (Ascii.eqb c "010"%char).

(** [[a-zA-Z0-9]] *)
Definition is_alnum (c : ascii) : bool :=
  let n := nat_of_ascii c in
  (Nat.leb 97 n && Nat.leb n 122) || (Nat.leb 65 n && Nat.leb n 90) ||
  (Nat.leb 48 n && Nat.leb n 57).

(** The rests of [s] after each way of matching [p*] at its start. *)
Fixpoint star_rem (p : ascii -> bool) (s : string) : list string :=
  s :: match s with
       | EmptyString => []
       | String c s' => if p c then star_rem p s' else []
       end.

(** The rests of [s] after each way the pattern can match at its start.
    Lazy and greedy repetitions have the same matches; only the order in
    which a backtracking matcher tries them differs. *)
Fixpoint rem (r : regex) (s : string) : list string :=
  match r with
  | REmpty => [s]
  | RClass p =>
      match s with
      | String c s' => if p c then [s'] else []
      | EmptyString => []
      end
  | RStar p => star_rem p s
  | RSeq r1 r2 => flat_map (rem r2) (rem r1 s)
  | RAlt r1 r2 => app (rem r1 s) (rem r2 s)
  | ROpt r => app (rem r s) [s]
  | RNotFollowedBy lit => if String.prefix lit s then [] else [s]
  end.

(** [pattern.search(s)] is truthy: the pattern matches at some position. *)
Fixpoint re_search (r : regex) (s : string) : bool :=
  match rem r s with [] => false | _ :: _ => true end ||
  match s with
  | EmptyString => false
  | String _ s' => re_search r s'
  end.

(** The two newlines that open [INLINE_MEDIA_PATTERN], ["\n\n"]. *)
Definition blank_line : string := String "010"%char (String "010"%char EmptyString).

Definition rchar (c : ascii) : regex := RClass (fun x => Ascii.eqb x c).

(** [\n\n!?(\[.*?])?\(?((https://((preview|i)\.redd\.it|reddit.com/link).*?)|(?!https)([a-zA-Z0-9]+( \".*?\")?))\)?] *)
Definition INLINE_MEDIA_PATTERN : regex :=
  RSeq (rlit blank_line)
  (RSeq (ROpt (rchar "!"))
  (RSeq (ROpt (RSeq (rchar "[") (RSeq (RStar py_dot) (rchar "]"))))
  (RSeq (ROpt (rchar "("))
  (RSeq
    (RAlt
      (RSeq (rlit "https://")
        (RSeq (RAlt (RSeq (RAlt (rlit "preview") (rlit "i")) (rlit ".redd.it"))
                    (RSeq (rlit "reddit") (RSeq (RClass py_dot) (rlit "com/link"))))
              (RStar py_dot)))
      (RSeq (RNotFollowedBy "https")
        (RSeq (RSeq (RClass is_alnum) (RStar is_alnum))
              (ROpt (RSeq (rchar " ")
                       (RSeq (rchar "034"%char)
                          (RSeq (RStar py_dot) (rchar "034"%char))))))))
    (ROpt (rchar ")")))))).

(** ** [EditableMixin.edit]: updating [self] from the response *)

(** The attributes removed from the returned object (lines 132-138). *)
Definition protected_attributes : list string :=
  ["_fetched"; "_reddit"; "_submission"; "replies"; "subreddit"].

(** Lines 130-141, with each object's [__dict__] a map from attribute
    names to values: [updated = updated[0]], each protected attribute
    present in it deleted, then [self.__dict__.update(updated.__dict__)]. *)
Definition update_from_text_edit {V} (self_dict : gmap string V)
    (updated : list (gmap string V)) : result (gmap string V) :=
  updated ← list_index 0 updated;
  let updated :=
    foldl (fun u attribute =>
             if decide (is_Some (u !! attribute)) then delete attribute u else u)
          updated protected_attributes in
  Ok (updated ∪ self_dict).

(** Line 143: [self.__dict__.update(updated)]. *)
Definition update_from_richtext_edit {V} (self_dict updated : gmap string V)
    : gmap string V :=
  updated ∪ self_dict.

(** ** Locality of the reconciler's computations *)

(** [m] only reads and writes the first [n] entries of the document, and
    keeps its length. *)
Definition local_to {A} (n : nat) (m : M A) : Prop :=
  forall d rest, length d = n ->
    length (snd (m d)) = n /\ m (app d rest) = (fst (m d), app (snd (m d)) rest).

(** * Proofs *)

(** ** Building [parsed_media_types] *)

Lemma parse_fold_Err l e : fold_left parse_media_type_step l (Err e) = Err e.
Proof. induction l as [|[k v] l IH]; simpl; auto. Qed.

Lemma parse_fold_Ok l acc p :
  fold_left parse_media_type_step l (Ok acc) = Ok p ->
  (forall k v, (k, v) ∈ l -> is_Some (mapped_kind v)) /\
  (NoDup l.*1 ->
   (forall k v, (k, v) ∈ l -> p !! k = mapped_kind v) /\
   (forall k, k ∉ l.*1 -> p !! k = acc !! k)).
Proof.
  revert acc. induction l as [|[k0 v0] l IH]; intros acc Hf; simpl in *.
  - injection Hf as <-. split; [intros k v Hin; inversion Hin|].
    intros _. split; [intros k v Hin; inversion Hin|auto].
  - destruct v0 as [e|]; simpl in Hf; [|rewrite parse_fold_Err in Hf; discriminate].
    destruct (MEDIA_TYPE_MAPPING e) as [kind|] eqn:Hm; simpl in Hf;
      [|rewrite parse_fold_Err in Hf; discriminate].
    destruct (IH _ Hf) as [Hall Hspec]. split.
    + intros k v Hin. apply elem_of_cons in Hin as [[= -> ->]|Hin].
      * unfold mapped_kind. simpl. rewrite Hm. eauto.
      * eauto.
    + intros Hnd. apply NoDup_cons in Hnd as [Hk0 Hnd].
      destruct (Hspec Hnd) as [Hin_l Hnot_l]. split.
      * intros k v Hin. apply elem_of_cons in Hin as [[= -> ->]|Hin]; [|eauto].
        rewrite Hnot_l by done. rewrite lookup_insert_eq.
        unfold mapped_kind. simpl. by rewrite Hm.
      * intros k Hk. rewrite not_elem_of_cons in Hk. destruct Hk as [Hne Hk].
        rewrite Hnot_l by done. by rewrite lookup_insert_ne.
Qed.

Lemma parse_fold_total l acc :
  (forall k v, (k, v) ∈ l -> is_Some (mapped_kind v)) ->
  exists p, fold_left parse_media_type_step l (Ok acc) = Ok p.
Proof.
  revert acc. induction l as [|[k0 v0] l IH]; intros acc Hall; simpl; [eauto|].
  destruct (Hall k0 v0) as [kind Hk]; [left|].
  unfold mapped_kind in Hk. destruct v0 as [e|]; simpl in Hk; [|discriminate].
  simpl. rewrite Hk. simpl. apply IH. intros k v Hin. apply (Hall k v). by right.
Qed.

Lemma parse_fold_Err_key l acc e :
  fold_left parse_media_type_step l (Ok acc) = Err e -> exists k, e = KeyError k.
Proof.
  revert acc. induction l as [|[k0 v0] l IH]; intros acc Hf; simpl in *; [discriminate|].
  destruct v0 as [e0|]; simpl in Hf; [|rewrite parse_fold_Err in Hf; injection Hf; eauto].
  destruct (MEDIA_TYPE_MAPPING e0) as [kind|]; simpl in Hf; [eauto|].
  rewrite parse_fold_Err in Hf. injection Hf. eauto.
Qed.

Lemma parse_media_types_Ok mm p :
  parse_media_types mm = Ok p ->
  (forall k v, mm !! k = Some v -> is_Some (mapped_kind v)) /\
  (forall k, p !! k = mm !! k ≫= mapped_kind).
Proof.
  unfold parse_media_types. intros Hf.
  destruct (parse_fold_Ok _ _ _ Hf) as [Hall Hspec].
  destruct (Hspec (NoDup_fst_map_to_list mm)) as [Hin Hnot]. split.
  - intros k v Hk. apply (Hall k). by apply elem_of_map_to_list.
  - intros k. destruct (mm !! k) as [v|] eqn:Hk; simpl.
    + apply Hin. by apply elem_of_map_to_list.
    + rewrite Hnot; [done|]. intros Hk'. apply list_elem_of_fmap in Hk'.
      destruct Hk' as [[k' v] [-> Hkv]]. apply elem_of_map_to_list in Hkv.
      simpl in *. congruence.
Qed.

Lemma parse_media_types_total mm :
  (forall k v, mm !! k = Some v -> is_Some (mapped_kind v)) ->
  exists p, parse_media_types mm = Ok p.
Proof.
  intros Hall. apply parse_fold_total. intros k v Hin.
  apply (Hall k). by apply elem_of_map_to_list.
Qed.

Lemma parse_media_types_Err mm e :
  parse_media_types mm = Err e -> exists k, e = KeyError k.
Proof. apply parse_fold_Err_key. Qed.

(** ** Running the reconciler's computations *)

Lemma M_bind_run {A B} (m : M A) (f : A -> M B) d :
  (m ≫= f) d = match m d with
               | (Ok a, d') => f a d'
               | (Err e, d') => (Err e, d')
               end.
Proof. reflexivity. Qed.

Lemma M_ret_run {A} (a : A) d : (mret a : M A) d = (Ok a, d).
Proof. reflexivity. Qed.

Lemma frame_refl P d : frame P d d.
Proof. split; [done|]. intros i. by left. Qed.

Lemma frame_trans P d1 d2 d3 : frame P d1 d2 -> frame P d2 d3 -> frame P d1 d3.
Proof.
  intros [Hl12 H12] [Hl23 H23]. split; [lia|]. intros i.
  destruct (H23 i) as [->|Hel]; [apply H12|by right].
Qed.

Lemma frame_mono (P Q : nat -> element -> Prop) d d' :
  (forall i el, P i el -> Q i el) -> frame P d d' -> frame Q d d'.
Proof.
  intros HPQ [Hl H]. split; [done|]. intros i.
  destruct (H i) as [?|(el & ? & ?)]; [by left|right; eauto].
Qed.

Lemma preserves_ret {A} P (a : A) : preserves P (mret a).
Proof. intros d. apply frame_refl. Qed.

Lemma preserves_raise {A} P e : preserves P (raise (A:=A) e).
Proof. intros d. apply frame_refl. Qed.

Lemma preserves_bind {A B} P (m : M A) (f : A -> M B) :
  preserves P m -> (forall a, preserves P (f a)) -> preserves P (m ≫= f).
Proof.
  intros Hm Hf d. rewrite M_bind_run. specialize (Hm d).
  destruct (m d) as [[a|e] d']; simpl in *; [|done].
  apply (frame_trans _ _ d'); [done|apply Hf].
Qed.

Lemma preserves_bind_lift {A B} P (r : result A) (f : A -> M B) :
  (forall a, r = Ok a -> preserves P (f a)) -> preserves P (lift r ≫= f).
Proof.
  intros Hf d. rewrite M_bind_run. unfold lift.
  destruct r as [a|e]; simpl; [by apply Hf|apply frame_refl].
Qed.

Lemma preserves_set P index el :
  P index el -> preserves P (set_document index el).
Proof.
  intros HP d. unfold set_document. simpl. split; [apply length_insert|].
  intros i. rewrite list_lookup_insert. case_decide as Hi; [|by left].
  destruct Hi as [<- _]. right. eauto.
Qed.

Lemma preserves_mono {A} (P Q : nat -> element -> Prop) (m : M A) :
  (forall i el, P i el -> Q i el) -> preserves P m -> preserves Q m.
Proof. intros HPQ Hm d. eapply frame_mono; eauto. Qed.

Lemma for_each_preserves {A} P (body : A -> M unit) l :
  (forall x, x ∈ l -> preserves P (body x)) -> preserves P (for_each body l).
Proof.
  induction l as [|x l IH]; intros Hb; simpl; [apply preserves_ret|].
  apply preserves_bind; [apply Hb; left|intros _; apply IH].
  intros y Hy. apply Hb. by right.
Qed.

Lemma for_enumerate_preserves {A} (P : nat -> A -> nat -> element -> Prop)
    (body : nat -> A -> M unit) start l :
  (forall k x, l !! k = Some x -> preserves (P (start + k) x) (body (start + k) x)) ->
  preserves (fun i el => exists k x, l !! k = Some x /\ P (start + k) x i el)
    (for_enumerate body start l).
Proof.
  revert start. induction l as [|x l IH]; intros start Hb; simpl;
    [apply preserves_ret|].
  apply preserves_bind.
  - specialize (Hb 0 x eq_refl). rewrite Nat.add_0_r in Hb.
    eapply preserves_mono; [|exact Hb].
    intros i el HP. exists 0, x. rewrite Nat.add_0_r. auto.
  - intros _. eapply preserves_mono; [|apply IH].
    + intros i el (k & y & Hk & HP). exists (S k), y.
      rewrite Nat.add_succ_comm in HP. auto.
    + intros k y Hk. rewrite Nat.add_succ_comm. by apply (Hb (S k)).
Qed.

Lemma getitem_Ok {A} key (v : option A) a : getitem key v = Ok a -> v = Some a.
Proof. destruct v; simpl; congruence. Qed.

Section Frame.

Variable set_pop : list string -> string.

Lemma replace_link_preserves parsed index blk items it :
  el_c blk = CList items -> it ∈ items ->
  preserves (fun j el => j = index /\ link_leaf set_pop parsed blk el)
    (replace_link set_pop parsed index it).
Proof.
  intros Hc Hit. unfold replace_link. case_decide as He; [|apply preserves_ret].
  apply preserves_bind_lift; intros u Hu%getitem_Ok.
  apply preserves_bind_lift; intros url Hurl.
  destruct (matched_ids parsed url) as [|m0 ms] eqn:Hm; [apply preserves_ret|].
  apply preserves_bind_lift; intros kind Hk%getitem_Ok.
  intros d. rewrite M_bind_run. case_decide as Ht.
  - unfold lift. destruct (item_t it) as [t|] eqn:Htt; simpl; [|apply frame_refl].
    apply preserves_set. split; [done|].
    exists items, it, u, url, kind. rewrite Hm. repeat split; auto; try congruence.
    right. exists t. rewrite Htt. split; [done|]. split; [congruence|done].
  - simpl. apply preserves_set. split; [done|].
    exists items, it, u, url, kind. rewrite Hm. repeat split; auto; try congruence.
Qed.

Lemma replace_element_preserves parsed index blk :
  preserves (fun j el => j = index /\ link_leaf set_pop parsed blk el)
    (replace_element set_pop parsed index blk).
Proof.
  unfold replace_element. destruct (el_c blk) as [s|items|] eqn:Hc.
  - case_decide; [apply preserves_ret|apply preserves_raise].
  - apply for_each_preserves. intros it Hit. by eapply replace_link_preserves.
  - apply preserves_raise.
Qed.

Lemma for_enumerate_replace_preserves parsed start l :
  preserves (fun i el => exists k blk, l !! k = Some blk /\ i = start + k /\
                                       link_leaf set_pop parsed blk el)
    (for_enumerate (replace_element set_pop parsed) start l).
Proof.
  eapply preserves_mono;
    [|apply (for_enumerate_preserves
               (fun j blk i el => i = j /\ link_leaf set_pop parsed blk el))].
  - intros i el (k & blk & Hk & -> & HP). eauto.
  - intros k blk _. apply replace_element_preserves.
Qed.

(** Every write of the reconciler puts at index [i] a leaf built from a
    link item of the original block at [i]. *)
Lemma reconcile_frame self d :
  frame (fun i el => exists mm parsed blk,
            media_metadata self = Some mm /\ parse_media_types mm = Ok parsed /\
            d !! i = Some blk /\ link_leaf set_pop parsed blk el)
    d (snd (_replace_richtext_links set_pop self d)).
Proof.
  unfold _replace_richtext_links. destruct (media_metadata self) as [mm|] eqn:Hmm;
    [|apply frame_refl].
  rewrite M_bind_run. unfold lift.
  destruct (parse_media_types mm) as [parsed|e] eqn:Hp; simpl; [|apply frame_refl].
  eapply frame_mono; [|apply for_enumerate_replace_preserves].
  intros i el (k & blk & Hk & -> & HP). simpl in *. eauto 10.
Qed.

End Frame.

(** ** String lemmas *)

Lemma prefix_app sub s : String.prefix sub s = true -> exists s2, s = sub ++ s2.
Proof.
  revert s. induction sub as [|a sub IH]; intros s Hp; [eauto|].
  destruct s as [|b s]; [discriminate|]. cbn [String.prefix] in Hp.
  destruct (ascii_dec a b) as [Hab|Hab]; [subst b|discriminate].
  destruct (IH s Hp) as [s2 ->]. eauto.
Qed.

Lemma contains_app sub s :
  contains sub s = true -> exists s1 s2, s = s1 ++ sub ++ s2.
Proof.
  induction s as [|c s IH]; cbn [contains]; intros Hc.
  - apply orb_true_iff in Hc as [Hp|Hp]; [|discriminate].
    destruct (prefix_app _ _ Hp) as [s2 Hs]. exists "", s2. done.
  - apply orb_true_iff in Hc as [Hp|Hp].
    + destruct (prefix_app _ _ Hp) as [s2 Hs]. exists "", s2. done.
    + destruct (IH Hp) as (s1 & s2 & ->). exists (String c s1), s2. done.
Qed.

Lemma count_char_app c s1 s2 :
  count_char c (s1 ++ s2) = count_char c s1 + count_char c s2.
Proof. induction s1 as [|c' s1 IH]; simpl; [done|]. rewrite IH. lia. Qed.

Lemma split_go_none sep s : contains sep s = false -> split_go sep 0 s = [s].
Proof.
  induction s as [|c s IH]; simpl; [done|]. intros Hc.
  apply orb_false_iff in Hc as [Hp Hc]. rewrite Hp, IH by done. done.
Qed.

Lemma split_chars_none p s :
  string_forallb (fun c => negb (p c)) s = true -> split_chars p s = [s].
Proof.
  induction s as [|c s IH]; simpl; [done|]. intros Hs.
  apply andb_true_iff in Hs as [Hc Hs]. apply negb_true_iff in Hc.
  rewrite Hc, IH by done. done.
Qed.

Lemma split_chars_app p s1 c s2 :
  string_forallb (fun c => negb (p c)) s1 = true -> p c = true ->
  split_chars p (s1 ++ String c s2) = s1 :: split_chars p s2.
Proof.
  intros Hs1 Hc. induction s1 as [|c1 s1 IH]; simpl in *; [by rewrite Hc|].
  apply andb_true_iff in Hs1 as [Hc1 Hs1]. apply negb_true_iff in Hc1.
  rewrite Hc1, IH by done. done.
Qed.

Lemma string_forallb_impl (f g : ascii -> bool) s :
  (forall c, f c = true -> g c = true) ->
  string_forallb f s = true -> string_forallb g s = true.
Proof.
  intros Hfg. induction s as [|c s IH]; simpl; [done|].
  rewrite !andb_true_iff. intros [? ?]. auto.
Qed.

Lemma count_char_forallb c s :
  string_forallb (fun c' => negb (Ascii.eqb c' c)) s = true -> count_char c s = 0.
Proof.
  induction s as [|c' s IH]; simpl; [done|].
  rewrite andb_true_iff, negb_true_iff. intros [Hc Hs]. rewrite Hc. auto.
Qed.

(** The parsing of [media_url id]: the ids tested are [i], [redd], [it] and
    [id]. *)
Lemma strip_media_url id :
  plain_media_id id = true ->
  strip_url (media_url id) = Ok ("i.redd.it/" ++ id).
Proof.
  intros Hid. unfold strip_url, media_url, str_split.
  assert (Hnc : contains "https://" ("i.redd.it/" ++ (id ++ "?amp=1")) = false).
  { destruct (contains _ _) eqn:Hc; [|done].
    apply contains_app in Hc as (s1 & s2 & Hs).
    apply (f_equal (count_char "/"%char)) in Hs.
    rewrite !count_char_app in Hs. simpl in Hs.
    rewrite count_char_forallb in Hs; [lia|].
    eapply string_forallb_impl; [|exact Hid].
    intros c. unfold is_dot_or_slash. rewrite andb_true_iff, !negb_true_iff, orb_false_iff.
    intros [[_ ?] _]. done. }
  simpl. rewrite split_go_none by done. simpl.
  change ("" ++ ?x) with x. rewrite split_chars_app; [done| |done].
  eapply string_forallb_impl; [|exact Hid].
  intros c. rewrite andb_true_iff. tauto.
Qed.

Lemma media_url_tokens id :
  plain_media_id id = true ->
  url_tokens ("i.redd.it/" ++ id) = ["i"; "redd"; "it"; id].
Proof.
  intros Hid. unfold url_tokens. simpl. rewrite split_chars_none; [done|].
  eapply string_forallb_impl; [|exact Hid].
  intros c. rewrite andb_true_iff. tauto.
Qed.

(** ** Outcomes of the reconciler *)

Lemma indep_ret {A} (a : A) : outcome_indep (mret a).
Proof. intros d1 d2. done. Qed.

Lemma indep_raise {A} e : outcome_indep (raise (A:=A) e).
Proof. intros d1 d2. done. Qed.

Lemma indep_set index el : outcome_indep (set_document index el).
Proof. intros d1 d2. done. Qed.

Lemma indep_bind {A B} (m : M A) (f : A -> M B) :
  outcome_indep m -> (forall a, outcome_indep (f a)) -> outcome_indep (m ≫= f).
Proof.
  intros Hm Hf d1 d2. rewrite !M_bind_run. specialize (Hm d1 d2).
  destruct (m d1) as [r1 d1'], (m d2) as [r2 d2']. simpl in Hm. subst r2.
  destruct r1; simpl; [apply Hf|done].
Qed.

Lemma indep_bind_lift {A B} (r : result A) (f : A -> M B) :
  (forall a, r = Ok a -> outcome_indep (f a)) -> outcome_indep (lift r ≫= f).
Proof.
  intros Hf d1 d2. rewrite !M_bind_run. unfold lift.
  destruct r as [a|e]; simpl; [by apply Hf|done].
Qed.

Lemma for_each_indep {A} (body : A -> M unit) l :
  (forall x, outcome_indep (body x)) -> outcome_indep (for_each body l).
Proof.
  intros Hb. induction l as [|x l IH]; simpl; [apply indep_ret|].
  apply indep_bind; [apply Hb|intros; apply IH].
Qed.

Lemma for_enumerate_indep {A} (body : nat -> A -> M unit) start l :
  (forall k x, outcome_indep (body k x)) -> outcome_indep (for_enumerate body start l).
Proof.
  intros Hb. revert start. induction l as [|x l IH]; intros start; simpl;
    [apply indep_ret|].
  apply indep_bind; [apply Hb|intros; apply IH].
Qed.

Lemma replace_link_indep set_pop parsed index it :
  outcome_indep (replace_link set_pop parsed index it).
Proof.
  unfold replace_link. case_decide; [|apply indep_ret].
  apply indep_bind_lift; intros u _. apply indep_bind_lift; intros url _.
  destruct (matched_ids parsed url); [apply indep_ret|].
  apply indep_bind_lift; intros kind _. apply indep_bind; [|intros; apply indep_set].
  case_decide; [|apply indep_ret].
  apply indep_bind_lift; intros t _. apply indep_ret.
Qed.

Lemma replace_element_indep set_pop parsed index blk :
  outcome_indep (replace_element set_pop parsed index blk).
Proof.
  unfold replace_element. destruct (el_c blk).
  - case_decide; [apply indep_ret|apply indep_raise].
  - apply for_each_indep. intros. apply replace_link_indep.
  - apply indep_raise.
Qed.

Lemma for_enumerate_app {A} (body : nat -> A -> M unit) start l1 l2 d :
  for_enumerate body start (l1 ++ l2) d =
  match for_enumerate body start l1 d with
  | (Ok _, d') => for_enumerate body (start + length l1) l2 d'
  | (Err e, d') => (Err e, d')
  end.
Proof.
  revert start d. induction l1 as [|x l1 IH]; intros start d; simpl.
  - by rewrite Nat.add_0_r.
  - rewrite !M_bind_run. destruct (body start x d) as [[u|e] d1] eqn:Hb; [|done].
    rewrite IH. by rewrite Nat.add_succ_comm.
Qed.

Lemma for_each_Ok {A} (body : A -> M unit) l d :
  (forall x, outcome_indep (body x)) ->
  fst (for_each body l d) = Ok tt -> forall x d', x ∈ l -> fst (body x d') = Ok tt.
Proof.
  intros Hb. revert d. induction l as [|y l IH]; intros d Hl x d' Hx;
    [by apply elem_of_nil in Hx|].
  simpl in Hl. rewrite M_bind_run in Hl.
  destruct (body y d) as [[u|e] d1] eqn:Hy; [destruct u|done].
  apply elem_of_cons in Hx as [<-|Hx].
  - rewrite (Hb x d' d), Hy. done.
  - eauto.
Qed.

Lemma for_enumerate_Ok {A} (body : nat -> A -> M unit) start l d :
  (forall k x, outcome_indep (body k x)) ->
  fst (for_enumerate body start l d) = Ok tt ->
  forall k x d', l !! k = Some x -> fst (body (start + k) x d') = Ok tt.
Proof.
  intros Hb. revert start d. induction l as [|y l IH]; intros start d Hl k x d' Hk;
    [done|].
  simpl in Hl. rewrite M_bind_run in Hl.
  destruct (body start y d) as [[u|e] d1] eqn:Hy; [destruct u|done].
  destruct k as [|k]; simpl in Hk.
  - injection Hk as ->. rewrite Nat.add_0_r, (Hb start x d' d), Hy. done.
  - rewrite <- Nat.add_succ_comm. eauto.
Qed.

Section Run.

Variable set_pop : list string -> string.

Lemma reconcile_some self mm doc :
  media_metadata self = Some mm ->
  _replace_richtext_links set_pop self doc =
  match parse_media_types mm with
  | Ok parsed => for_enumerate (replace_element set_pop parsed) 0 doc doc
  | Err e => (Err e, doc)
  end.
Proof.
  intros Hmm. unfold _replace_richtext_links. rewrite Hmm, M_bind_run. unfold lift.
  destruct (parse_media_types mm); done.
Qed.

(** A successful run processed every block without raising. *)
Lemma reconcile_Ok self mm doc :
  media_metadata self = Some mm ->
  fst (_replace_richtext_links set_pop self doc) = Ok tt ->
  exists parsed, parse_media_types mm = Ok parsed /\
    forall k blk d', doc !! k = Some blk ->
      fst (replace_element set_pop parsed k blk d') = Ok tt.
Proof.
  intros Hmm. rewrite (reconcile_some _ _ _ Hmm).
  destruct (parse_media_types mm) as [parsed|e]; [|done]. intros Hok.
  exists parsed. split; [done|]. intros k blk d' Hk.
  apply (for_enumerate_Ok _ 0 doc doc); auto.
  intros. apply replace_element_indep.
Qed.

(** Once the blocks before [i] have been processed without raising, the
    block at [i] is processed on a document of the same length, and the
    blocks after it do not write at [i]. *)
Lemma reconcile_at self mm parsed doc i blk :
  media_metadata self = Some mm -> parse_media_types mm = Ok parsed ->
  doc !! i = Some blk ->
  fst (_replace_richtext_links set_pop self (take i doc)) = Ok tt ->
  exists d1, length d1 = length doc /\
    forall r2 d2, replace_element set_pop parsed i blk d1 = (r2, d2) ->
      (r2 = Ok tt -> snd (_replace_richtext_links set_pop self doc) !! i = d2 !! i /\
                     fst (_replace_richtext_links set_pop self doc) =
                     fst (for_enumerate (replace_element set_pop parsed) (S i)
                            (drop (S i) doc) d2)) /\
      (forall e, r2 = Err e -> _replace_richtext_links set_pop self doc = (Err e, d2)).
Proof.
  intros Hmm Hp Hi Hpre.
  rewrite (reconcile_some _ _ _ Hmm), Hp in Hpre. rewrite (reconcile_some _ _ _ Hmm), Hp.
  assert (Hlt : i < length doc) by (by eapply lookup_lt_Some).
  pose proof (take_drop_middle doc i blk Hi) as Hsplit.
  remember (for_enumerate (replace_element set_pop parsed) 0 (take i doc) doc) as run1 eqn:Hrun1.
  destruct run1 as [r1 d1].
  assert (Hr1 : r1 = Ok tt).
  { transitivity (fst (for_enumerate (replace_element set_pop parsed) 0 (take i doc) doc));
      [by rewrite <- Hrun1|].
    rewrite <- Hpre. apply for_enumerate_indep. intros. apply replace_element_indep. }
  subst r1.
  assert (Hlen1 : length d1 = length doc).
  { pose proof (for_enumerate_replace_preserves set_pop parsed 0 (take i doc) doc) as [Hl _].
    by rewrite <- Hrun1 in Hl. }
  exists d1. split; [done|]. intros r2 d2 Hel.
  assert (Heq : for_enumerate (replace_element set_pop parsed) 0 doc doc =
                match r2 with
                | Ok _ => for_enumerate (replace_element set_pop parsed) (S i)
                            (drop (S i) doc) d2
                | Err e => (Err e, d2)
                end).
  { rewrite <- Hsplit at 1. rewrite for_enumerate_app, <- Hrun1.
    rewrite length_take_le by lia. simpl. rewrite M_bind_run, Hel. done. }
  rewrite Heq. split.
  - intros ->. split; [|done].
    pose proof (for_enumerate_replace_preserves set_pop parsed (S i) (drop (S i) doc) d2)
      as [_ Hfr].
    destruct (Hfr i) as [Hsame|(el & _ & k & x & _ & Hik & _)]; [done|lia].
  - intros e ->. done.
Qed.

End Run.

Lemma strip_url_no_scheme u :
  contains "https://" u = false -> strip_url u = Err IndexError.
Proof.
  intros Hc. unfold strip_url, str_split. rewrite split_go_none by done. done.
Qed.

Lemma matched_ids_elem parsed url x :
  x ∈ matched_ids parsed url <-> is_Some (parsed !! x) /\ x ∈ url_tokens url.
Proof. unfold matched_ids. by rewrite list_elem_of_filter. Qed.

Lemma for_each_all_Ok {A} (body : A -> M unit) l d :
  (forall x d', x ∈ l -> fst (body x d') = Ok tt) -> fst (for_each body l d) = Ok tt.
Proof.
  revert d. induction l as [|x l IH]; intros d Hb; simpl; [done|].
  rewrite M_bind_run. assert (Hx : fst (body x d) = Ok tt) by (apply Hb; left).
  destruct (body x d) as [r d1]. simpl in Hx. subst r.
  apply IH. intros y d' Hy. apply Hb. by right.
Qed.

(** Every write of the reconciler, with [set.pop()] returning a member,
    is a [media_leaf_of] the original block. *)
Lemma reconcile_writes set_pop self doc :
  pop_spec set_pop ->
  frame (fun i el => exists mm blk, media_metadata self = Some mm /\
                                    doc !! i = Some blk /\ media_leaf_of mm blk el)
    doc (snd (_replace_richtext_links set_pop self doc)).
Proof.
  intros Hpop. eapply frame_mono; [|apply reconcile_frame].
  intros i el (mm & parsed & blk & Hmm & Hp & Hblk & Hleaf).
  exists mm, blk. split; [done|]. split; [done|].
  destruct Hleaf as (items & it & u & url & kind & Hc & Hit & He & Hu & Hurl & Hne &
                     Hk & Hel_e & Hel_id & Hcap).
  destruct (parse_media_types_Ok _ _ Hp) as [_ Hparsed].
  pose proof (Hpop _ Hne) as Hmid. apply matched_ids_elem in Hmid as [_ Htok].
  exists items, it, u, url, (set_pop (matched_ids parsed url)), kind.
  rewrite <- Hparsed. repeat split; auto.
  destruct el as [e id c]; simpl in *. subst e id.
  destruct Hcap as [[? ->]|(t & ? & ? & ->)]; [left|right; exists t]; auto.
Qed.

Lemma MEDIA_TYPE_MAPPING_None k :
  k ∉ ["Image"; "RedditVideo"; "AnimatedImage"] -> MEDIA_TYPE_MAPPING k = None.
Proof.
  intros Hk. unfold MEDIA_TYPE_MAPPING.
  destruct (String.eqb_spec k "Image"); [subst; set_solver|].
  destruct (String.eqb_spec k "RedditVideo"); [subst; set_solver|].
  destruct (String.eqb_spec k "AnimatedImage"); [subst; set_solver|]. done.
Qed.

Lemma pop_first_spec : pop_spec pop_first.
Proof. intros [|x l] H; [congruence|]. simpl. left. Qed.

(** * The claims *)

(** C2: [MEDIA_TYPE_MAPPING] sends ["Image"] to ["img"], ["RedditVideo"] to
    ["video"] and ["AnimatedImage"] to ["gif"], and [parsed_media_types]
    translates every descriptor through it.  When [self.media_metadata]
    has a descriptor whose kind is outside these three, the reconciler
    raises a [KeyError] while building [parsed_media_types], before the
    traversal: the document is returned untouched. *)
Theorem media_kinds_and_unknown_kind :
  MEDIA_TYPE_MAPPING "Image" = Some "img" /\
  MEDIA_TYPE_MAPPING "RedditVideo" = Some "video" /\
  MEDIA_TYPE_MAPPING "AnimatedImage" = Some "gif" /\
  (forall mm parsed, parse_media_types mm = Ok parsed ->
     forall k, parsed !! k = mm !! k ≫= mapped_kind) /\
  (forall set_pop self mm doc k kind,
     media_metadata self = Some mm -> mm !! k = Some (Some kind) ->
     kind ∉ ["Image"; "RedditVideo"; "AnimatedImage"] ->
     exists key, _replace_richtext_links set_pop self doc = (Err (KeyError key), doc)).
Proof.
  split; [done|]. split; [done|]. split; [done|]. split.
  - intros mm parsed Hp. apply (parse_media_types_Ok _ _ Hp).
  - intros set_pop self mm doc k kind Hmm Hk Hkind.
    rewrite (reconcile_some _ _ _ _ Hmm).
    destruct (parse_media_types mm) as [parsed|e] eqn:Hp.
    + destruct (parse_media_types_Ok _ _ Hp) as [Hall _].
      destruct (Hall k _ Hk) as [x Hx]. unfold mapped_kind in Hx. simpl in Hx.
      rewrite MEDIA_TYPE_MAPPING_None in Hx by done. discriminate.
    + destruct (parse_media_types_Err _ _ Hp) as [key ->]. eauto.
Qed.

(** C4: whenever the reconciler puts a leaf at index [i] in place of the
    block there, the leaf's id is a key of [self.media_metadata] and one of
    the tokens of a link item of that block (its URL after
    [split("https://")[1].split("?")[0]], split on ['.'] and ['/']), for
    every choice [set.pop()] makes among the matching ids. *)
Theorem reconciled_id_in_url set_pop self doc :
  pop_spec set_pop ->
  forall i, snd (_replace_richtext_links set_pop self doc) !! i = doc !! i \/
    exists mm blk items it u url mid el,
      media_metadata self = Some mm /\ doc !! i = Some blk /\
      snd (_replace_richtext_links set_pop self doc) !! i = Some el /\
      el_id el = Some mid /\ is_Some (mm !! mid) /\
      el_c blk = CList items /\ it ∈ items /\ item_e it = Some "link" /\
      item_u it = Some u /\ strip_url u = Ok url /\ mid ∈ url_tokens url.
Proof.
  intros Hpop i. destruct (reconcile_writes set_pop self doc Hpop) as [_ Hfr].
  destruct (Hfr i) as [Hsame|(el & Hel & mm & blk & Hmm & Hblk & Hleaf)]; [by left|right].
  destruct Hleaf as (items & it & u & url & mid & kind & Hc & Hit & He & Hu & Hurl &
                     Htok & Hk & Hcap).
  exists mm, blk, items, it, u, url, mid, el. repeat split; auto.
  - destruct Hcap as [[_ ->]|(t & _ & _ & ->)]; done.
  - destruct (mm !! mid); [eauto|discriminate].
Qed.

(** C6 (amended): without a [media_metadata] attribute the reconciler
    returns normally and leaves the document as it is; with an empty
    [media_metadata] it writes no block (the traversal still runs). *)
Theorem reconcile_no_media set_pop self doc :
  (media_metadata self = None ->
   _replace_richtext_links set_pop self doc = (Ok tt, doc)) /\
  (media_metadata self = Some ∅ ->
   snd (_replace_richtext_links set_pop self doc) = doc).
Proof.
  split.
  - intros Hmm. unfold _replace_richtext_links. by rewrite Hmm.
  - intros Hmm. destruct (reconcile_frame set_pop self doc) as [Hlen Hfr].
    apply list_eq. intros i.
    destruct (Hfr i) as [?|(el & _ & mm & parsed & blk & Hmm' & Hp & _ & Hleaf)]; [done|].
    rewrite Hmm in Hmm'. injection Hmm' as <-.
    assert (Hempty : parse_media_types ∅ = Ok ∅) by reflexivity.
    rewrite Hempty in Hp. injection Hp as <-.
    destruct Hleaf as (items & it & u & url & kind & _ & _ & _ & _ & _ & _ & Hk & _).
    rewrite lookup_empty in Hk. discriminate.
Qed.

(** C6: counterexample.  With an empty [media_metadata] a block whose
    content is a string and whose kind is not a media leaf still fails the
    schema assertion. *)
Lemma reconcile_empty_media_asserts :
  _replace_richtext_links pop_first (mk_editable (Some ∅) "t1_abc" true)
    [mk_element (Some "par") None (CStr "text")] =
  (Err (AssertionError schema_msg), [mk_element (Some "par") None (CStr "text")]).
Proof. vm_compute. reflexivity. Qed.

(** C7: when no block of the document has an inline item tagged
    ["link"], the reconciler leaves every block of the document as it was
    (whether or not it raises). *)
Theorem reconcile_no_links set_pop self doc :
  (forall blk items it, blk ∈ doc -> el_c blk = CList items -> it ∈ items ->
     item_e it <> Some "link") ->
  snd (_replace_richtext_links set_pop self doc) = doc.
Proof.
  intros Hno. destruct (reconcile_frame set_pop self doc) as [Hlen Hfr].
  apply list_eq. intros i.
  destruct (Hfr i) as [?|(el & _ & mm & parsed & blk & _ & _ & Hblk & Hleaf)]; [done|].
  destruct Hleaf as (items & it & _ & _ & _ & Hc & Hit & He & _).
  exfalso. apply (Hno blk items it); auto. by eapply list_elem_of_lookup_2.
Qed.

(** C8: the reconciler only overwrites entries of the document by index:
    the document keeps its length and order, and every entry is either the
    original block or, at the same index, the leaf built from a matching
    link item of that block. *)
Theorem reconcile_in_place set_pop self doc :
  pop_spec set_pop ->
  length (snd (_replace_richtext_links set_pop self doc)) = length doc /\
  forall i, snd (_replace_richtext_links set_pop self doc) !! i = doc !! i \/
    exists mm blk el, media_metadata self = Some mm /\ doc !! i = Some blk /\
      snd (_replace_richtext_links set_pop self doc) !! i = Some el /\
      media_leaf_of mm blk el.
Proof.
  intros Hpop. destruct (reconcile_writes set_pop self doc Hpop) as [Hlen Hfr].
  split; [done|]. intros i.
  destruct (Hfr i) as [?|(el & Hel & mm & blk & ? & ? & ?)]; [by left|right].
  eauto 10.
Qed.

(** C10: with a [media_metadata] attribute, a link item whose URL does not
    contain ["https://"] makes the reconciler raise (the [[1]] after
    [split("https://")] is out of range), whatever the other blocks are. *)
Theorem reconcile_link_without_https set_pop self mm doc i blk items it u :
  media_metadata self = Some mm ->
  doc !! i = Some blk -> el_c blk = CList items -> it ∈ items ->
  item_e it = Some "link" -> item_u it = Some u ->
  contains "https://" u = false ->
  exists e, fst (_replace_richtext_links set_pop self doc) = Err e.
Proof.
  intros Hmm Hi Hc Hit He Hu Hno.
  destruct (fst (_replace_richtext_links set_pop self doc)) as [[]|e] eqn:Hr; [|eauto].
  exfalso. destruct (reconcile_Ok _ _ _ _ Hmm Hr) as (parsed & _ & Hall).
  specialize (Hall i blk [] Hi). unfold replace_element in Hall. rewrite Hc in Hall.
  pose proof (for_each_Ok _ _ _ (fun x => replace_link_indep _ _ _ x) Hall it [] Hit)
    as Hl.
  revert Hl. unfold replace_link. rewrite decide_True by done.
  rewrite M_bind_run. unfold lift. rewrite Hu. simpl.
  rewrite M_bind_run, strip_url_no_scheme by done. done.
Qed.

Lemma matched_ids_nil parsed url :
  (forall tok, tok ∈ url_tokens url -> parsed !! tok = None) ->
  matched_ids parsed url = [].
Proof.
  intros Hno. destruct (matched_ids parsed url) as [|x xs] eqn:Hm; [done|].
  assert (Hx : x ∈ matched_ids parsed url) by (rewrite Hm; left).
  apply matched_ids_elem in Hx as [[k Hk] Htok]. rewrite Hno in Hk by done. discriminate.
Qed.

(** C5 (amended): a block whose content is a string is never overwritten,
    whatever its kind.  Without a [media_metadata] attribute the reconciler
    returns normally with the document untouched.  With one, a block of
    kind ["gif"], ["img"] or ["video"] is skipped: when the blocks before it
    go through, so does it; a block of any other kind makes the reconciler
    fail with the schema assertion, provided the blocks before it went
    through. *)
Theorem reconcile_string_block set_pop self doc (i : nat) blk s :
  doc !! i = Some blk -> el_c blk = CStr s ->
  snd (_replace_richtext_links set_pop self doc) !! i = Some blk /\
  (media_metadata self = None ->
   _replace_richtext_links set_pop self doc = (Ok tt, doc)) /\
  (forall mm, media_metadata self = Some mm ->
   (el_e blk ∈ [Some "gif"; Some "img"; Some "video"] ->
    fst (_replace_richtext_links set_pop self (take i doc)) = Ok tt ->
    fst (_replace_richtext_links set_pop self (take (S i) doc)) = Ok tt) /\
   (el_e blk ∉ [Some "gif"; Some "img"; Some "video"] ->
    fst (_replace_richtext_links set_pop self (take i doc)) = Ok tt ->
    fst (_replace_richtext_links set_pop self doc) = Err (AssertionError schema_msg))).
Proof.
  intros Hi Hc. split; [|split].
  - destruct (reconcile_frame set_pop self doc) as [_ Hfr].
    destruct (Hfr i) as [->|(el & _ & mm' & parsed & blk' & _ & _ & Hblk & Hleaf)];
      [done|].
    rewrite Hi in Hblk. injection Hblk as <-.
    destruct Hleaf as (items & _ & _ & _ & _ & Hc' & _). congruence.
  - intros Hmm. unfold _replace_richtext_links. by rewrite Hmm.
  - intros mm Hmm. split.
    + intros Hkind Hpre.
      destruct (reconcile_Ok _ _ _ _ Hmm Hpre) as (parsed & Hp & _).
      assert (Hi' : take (S i) doc !! i = Some blk) by (rewrite lookup_take_lt; [done|lia]).
      assert (Hpre' : fst (_replace_richtext_links set_pop self (take i (take (S i) doc)))
                      = Ok tt) by (rewrite take_take, Nat.min_l by lia; done).
      destruct (reconcile_at _ _ _ _ _ _ _ Hmm Hp Hi' Hpre') as (d1 & _ & Hrun).
      assert (Hel : fst (replace_element set_pop parsed i blk d1) = Ok tt).
      { unfold replace_element. rewrite Hc, decide_True by done. done. }
      destruct (replace_element set_pop parsed i blk d1) as [r2 d2] eqn:Hel'.
      simpl in Hel. subst r2. destruct (Hrun _ _ eq_refl) as [Hok _].
      destruct (Hok eq_refl) as [_ ->].
      rewrite drop_ge; [done|]. rewrite length_take. lia.
    + intros Hkind Hpre.
      destruct (reconcile_Ok _ _ _ _ Hmm Hpre) as (parsed & Hp & _).
      destruct (reconcile_at _ _ _ _ _ _ _ Hmm Hp Hi Hpre) as (d1 & _ & Hrun).
      assert (Hel : replace_element set_pop parsed i blk d1 =
                    (Err (AssertionError schema_msg), d1)).
      { unfold replace_element. rewrite Hc, decide_False by done. done. }
      destruct (Hrun _ _ Hel) as [_ Herr]. by rewrite (Herr _ eq_refl).
Qed.

(** C3 (amended): a block whose link items all have URLs containing
    ["https://"] whose tokens are not keys of [media_metadata] is never
    overwritten, and it does not make the reconciler raise: when the blocks
    before it go through, so does it. *)
Theorem reconcile_unmatched_block set_pop self mm doc i blk items :
  media_metadata self = Some mm -> doc !! i = Some blk -> el_c blk = CList items ->
  (forall it, it ∈ items -> item_e it = Some "link" ->
     exists u url, item_u it = Some u /\ strip_url u = Ok url /\
       forall tok, tok ∈ url_tokens url -> mm !! tok = None) ->
  snd (_replace_richtext_links set_pop self doc) !! i = Some blk /\
  (fst (_replace_richtext_links set_pop self (take i doc)) = Ok tt ->
   fst (_replace_richtext_links set_pop self (take (S i) doc)) = Ok tt).
Proof.
  intros Hmm Hi Hc Hlinks.
  assert (Hnomatch : forall parsed it u url, parse_media_types mm = Ok parsed ->
            it ∈ items -> item_e it = Some "link" -> item_u it = Some u ->
            strip_url u = Ok url -> matched_ids parsed url = []).
  { intros parsed it u url Hp Hit He Hu Hurl.
    destruct (Hlinks it Hit He) as (u' & url' & Hu' & Hurl' & Hno).
    rewrite Hu in Hu'. injection Hu' as <-. rewrite Hurl in Hurl'. injection Hurl' as <-.
    apply matched_ids_nil. intros tok Htok.
    destruct (parse_media_types_Ok _ _ Hp) as [_ ->]. by rewrite Hno. }
  split.
  - destruct (reconcile_frame set_pop self doc) as [_ Hfr].
    destruct (Hfr i) as [->|(el & _ & mm' & parsed & blk' & Hmm' & Hp & Hblk & Hleaf)];
      [done|].
    rewrite Hmm in Hmm'. injection Hmm' as <-. rewrite Hi in Hblk. injection Hblk as <-.
    destruct Hleaf as (items' & it & u & url & kind & Hc' & Hit & He & Hu & Hurl & Hne & _).
    rewrite Hc in Hc'. injection Hc' as <-.
    exfalso. apply Hne. by eapply Hnomatch.
  - intros Hpre.
    destruct (reconcile_Ok _ _ _ _ Hmm Hpre) as (parsed & Hp & _).
    assert (Hi' : take (S i) doc !! i = Some blk) by (rewrite lookup_take_lt; [done|lia]).
    assert (Hpre' : fst (_replace_richtext_links set_pop self (take i (take (S i) doc)))
                    = Ok tt) by (rewrite take_take, Nat.min_l by lia; done).
    destruct (reconcile_at _ _ _ _ _ _ _ Hmm Hp Hi' Hpre') as (d1 & _ & Hrun).
    assert (Hel : fst (replace_element set_pop parsed i blk d1) = Ok tt).
    { unfold replace_element. rewrite Hc. apply for_each_all_Ok.
      intros it d' Hit. unfold replace_link. case_decide as He; [|done].
      rewrite M_bind_run. unfold lift.
      destruct (Hlinks it Hit He) as (u & url & Hu & Hurl & _).
      rewrite Hu. simpl. rewrite M_bind_run, Hurl. simpl.
      rewrite (Hnomatch parsed it u url); done. }
    destruct (replace_element set_pop parsed i blk d1) as [r2 d2] eqn:Hel'.
    simpl in Hel. subst r2. destruct (Hrun _ _ eq_refl) as [Hok _].
    destruct (Hok eq_refl) as [_ ->].
    rewrite drop_ge; [done|]. rewrite length_take. lia.
Qed.

(** C1 (amended): let [id] be a key of [media_metadata] with canonical kind
    [kind], with none of ['.'], ['/'], ['?'] in it, and such that none of
    the other URL tokens ["i"], ["redd"], ["it"] is a key.  A block whose
    only inline item is a link to [https://i.redd.it/{id}?amp=1] with
    display text [t] is replaced by the leaf [{e: kind, id: id}], with
    [c: t] when [t] differs from the URL, provided the blocks before it
    went through. *)
Theorem reconcile_media_link set_pop self mm doc i blk id kind t :
  pop_spec set_pop ->
  media_metadata self = Some mm ->
  mm !! id ≫= mapped_kind = Some kind ->
  plain_media_id id = true ->
  (forall k, k ∈ ["i"; "redd"; "it"] -> k <> id -> mm !! k = None) ->
  doc !! i = Some blk ->
  el_c blk = CList [mk_item (Some "link") (Some (media_url id)) (Some t)] ->
  fst (_replace_richtext_links set_pop self (take i doc)) = Ok tt ->
  snd (_replace_richtext_links set_pop self doc) !! i =
  Some (mk_element (Some kind) (Some id)
          (if decide (t = media_url id) then CNone else CStr t)).
Proof.
  intros Hpop Hmm Hkind Hid Hother Hi Hc Hpre.
  destruct (reconcile_Ok _ _ _ _ Hmm Hpre) as (parsed & Hp & _).
  destruct (parse_media_types_Ok _ _ Hp) as [_ Hparsed].
  destruct (reconcile_at _ _ _ _ _ _ _ Hmm Hp Hi Hpre) as (d1 & Hlen & Hrun).
  set (url := "i.redd.it/" ++ id).
  assert (Hmatched : forall x, x ∈ matched_ids parsed url -> x = id).
  { intros x Hx. apply matched_ids_elem in Hx as [[k Hk] Htok].
    unfold url in Htok. rewrite media_url_tokens in Htok by done.
    destruct (decide (x = id)) as [|Hne]; [done|]. exfalso.
    rewrite Hparsed, Hother in Hk; [discriminate| |done].
    apply elem_of_cons in Htok as [->|Htok]; [left|].
    apply elem_of_cons in Htok as [->|Htok]; [right; left|].
    apply elem_of_cons in Htok as [->|Htok]; [right; right; left|].
    apply elem_of_cons in Htok as [->|Htok]; [done|by apply elem_of_nil in Htok]. }
  assert (Hid_in : id ∈ matched_ids parsed url).
  { apply matched_ids_elem. rewrite Hparsed, Hkind. split; [eauto|].
    unfold url. rewrite media_url_tokens by done. right; right; right; left. }
  set (el := mk_element (Some kind) (Some id)
               (if decide (t = media_url id) then CNone else CStr t)).
  assert (Hel : replace_element set_pop parsed i blk d1 = (Ok tt, <[i := el]> d1)).
  { destruct (matched_ids parsed url) as [|m ms] eqn:Hm;
      [by apply elem_of_nil in Hid_in|].
    assert (Hpop_id : set_pop (m :: ms) = id).
    { apply Hmatched. apply Hpop. done. }
    unfold replace_element. rewrite Hc. cbn [for_each]. unfold replace_link.
    rewrite decide_True by done.
    unfold mbind, M_bind, mret, M_ret, lift, set_document.
    cbn -[strip_url matched_ids media_url lookup decide].
    rewrite strip_media_url by done. fold url. rewrite Hm, Hpop_id, Hparsed, Hkind.
    cbn -[strip_url matched_ids media_url lookup decide].
    unfold el. case_decide as Ht.
    - rewrite decide_False by congruence. done.
    - rewrite decide_True by congruence. done. }
  destruct (Hrun _ _ Hel) as [Hok _]. destruct (Hok eq_refl) as [-> _].
  apply list_lookup_insert_eq. rewrite Hlen. by eapply lookup_lt_Some.
Qed.

Lemma edit_prepare_uploads search fmt upload body inline_media body' uploads is_rt :
  edit_prepare search fmt upload body inline_media = (body', uploads, is_rt) ->
  forall req, req ∈ uploads -> exists media, req = UploadInlineMedia media.
Proof.
  unfold edit_prepare. destruct inline_media as [|p im]; intros Hprep req Hreq.
  - injection Hprep as _ <- _. by apply elem_of_nil in Hreq.
  - injection Hprep as _ <- _. apply list_elem_of_In in Hreq.
    change (In req (map (fun '(_, media) => UploadInlineMedia media) (p :: im))) in Hreq.
    apply in_map_iff in Hreq as ([ph media] & <- & _). eauto.
Qed.

(** C9: in [edit] with [preserve_inline_media], the reconciler runs on the
    converted document before the edit request; when it raises, [edit]
    raises the same error and no edit request is issued. *)
Theorem edit_reconcile_error_blocks_post set_pop search fmt upload convert dumps
    self body inline_media body' uploads e :
  edit_prepare search fmt upload body inline_media = (Ok body', uploads, true) ->
  fst (_replace_richtext_links set_pop self (convert body')) = Err e ->
  snd (edit set_pop search fmt upload convert dumps self body true inline_media) = Err e /\
  forall data,
    PostEdit data ∉ fst (edit set_pop search fmt upload convert dumps self body true
                           inline_media).
Proof.
  intros Hprep Hrec. unfold edit. rewrite Hprep.
  destruct (_replace_richtext_links set_pop self (convert body')) as [r d] eqn:Hrun.
  simpl in Hrec. subst r. simpl. split; [done|].
  intros data Hin. apply elem_of_app in Hin as [Hin|Hin].
  - destruct (edit_prepare_uploads _ _ _ _ _ _ _ _ Hprep _ Hin) as [media Heq].
    discriminate.
  - apply elem_of_cons in Hin as [Heq|Hin]; [discriminate|by apply elem_of_nil in Hin].
Qed.

(** C1: counterexample.  An id with a ['.'] is not a token of its URL, so
    the block stays; and when ["it"] is also a key, [set.pop()] may return
    it instead of the id in the path. *)
Lemma reconcile_media_link_counterexample :
  _replace_richtext_links pop_first
    (mk_editable (Some {["a.b" := Some "Image"]}) "t1_abc" true)
    [mk_element (Some "par") None
       (CList [mk_item (Some "link") (Some (media_url "a.b")) (Some (media_url "a.b"))])] =
  (Ok tt, [mk_element (Some "par") None
       (CList [mk_item (Some "link") (Some (media_url "a.b")) (Some (media_url "a.b"))])]) /\
  _replace_richtext_links pop_first
    (mk_editable (Some (<["it" := Some "RedditVideo"]> {["abc" := Some "Image"]}))
       "t1_abc" true)
    [mk_element (Some "par") None
       (CList [mk_item (Some "link") (Some (media_url "abc")) (Some (media_url "abc"))])] =
  (Ok tt, [mk_element (Some "video") (Some "it") CNone]).
Proof. split; vm_compute; reflexivity. Qed.

(** C3: counterexample.  A block with a link that matches nothing is still
    replaced when another link item of the same block matches. *)
Lemma reconcile_unmatched_block_counterexample :
  _replace_richtext_links pop_first sample_self
    [mk_element (Some "par") None
       (CList [mk_item (Some "link") (Some "https://example.com/page") (Some "page");
               mk_item (Some "link") (Some (media_url "abc")) (Some (media_url "abc"))])] =
  (Ok tt, [mk_element (Some "img") (Some "abc") CNone]).
Proof. vm_compute. reflexivity. Qed.

(** C5: counterexample.  Without a [media_metadata] attribute no block is
    checked: a string block of kind ["par"] goes through. *)
Lemma reconcile_string_block_counterexample :
  _replace_richtext_links pop_first (mk_editable None "t1_abc" true) [sample_bad_leaf] =
  (Ok tt, [sample_bad_leaf]).
Proof. reflexivity. Qed.

(** * Further properties of the module *)

(** ** [str.split] and the URL stripping *)

Lemma split_go_skip sep x r :
  split_go sep (String.length x) (x ++ r) = split_go sep 0 r.
Proof. induction x as [|c x IH]; simpl; auto. Qed.

Lemma split_go_nonempty sep k s : split_go sep k s <> [].
Proof.
  revert k. induction s as [|c s IH]; intros [|k]; cbn [split_go]; [done|done| |apply IH].
  destruct (String.prefix sep (String c s)); [done|].
  unfold cons_head. destruct (split_go sep 0 s); done.
Qed.

Lemma split_chars_nonempty p s : split_chars p s <> [].
Proof.
  induction s as [|c s IH]; cbn [split_chars]; [done|].
  destruct (p c); [done|]. unfold cons_head. destruct (split_chars p s); done.
Qed.

Lemma concat_cons_head sep c l :
  String.concat sep (cons_head c l) = String c (String.concat sep l).
Proof. destruct l as [|x [|y l]]; reflexivity. Qed.

Lemma concat_cons_empty sep l :
  l <> [] -> String.concat sep ("" :: l) = sep ++ String.concat sep l.
Proof. destruct l as [|x l]; [done|]. reflexivity. Qed.



Lemma split_chars_concat (p : ascii -> bool) sepc s :
  (forall c, p c = true -> c = sepc) ->
  String.concat (String sepc EmptyString) (split_chars p s) = s.
Proof.
  intros Hp. induction s as [|c s IH]; [done|]. simpl.
  destruct (p c) eqn:Hc.
  - rewrite concat_cons_empty by apply split_chars_nonempty. rewrite IH.
    by rewrite (Hp c Hc).
  - by rewrite concat_cons_head, IH.
Qed.

Lemma str_app_cons c s1 s2 : String c s1 ++ s2 = String c (s1 ++ s2).
Proof. reflexivity. Qed.

Lemma string_app_empty s : s ++ "" = s.
Proof. induction s as [|c s IH]; [done|]. rewrite str_app_cons. congruence. Qed.

Lemma string_length_app s1 s2 :
  String.length (s1 ++ s2) = String.length s1 + String.length s2.
Proof. induction s1 as [|c s1 IH]; [done|]. rewrite str_app_cons. simpl. lia. Qed.

Lemma split_go_concat sep s :
  sep <> "" -> String.concat sep (split_go sep 0 s) = s.
Proof.
  intros Hsep. remember (String.length s) as n eqn:Hn.
  assert (Hle : String.length s <= n) by lia. clear Hn. revert s Hle.
  induction n as [|n IH]; intros s Hle.
  - destruct s; cbn [String.length] in *; [done|lia].
  - destruct s as [|c rest]; [done|]. cbn [split_go].
    destruct (String.prefix sep (String c rest)) eqn:Hp.
    + destruct (prefix_app _ _ Hp) as [s2 Hs2].
      destruct sep as [|c0 sep']; [done|]. rewrite str_app_cons in Hs2. injection Hs2 as <- ->.
      assert (Hk : String.length (String c sep') - 1 = String.length sep') by (simpl; lia).
      rewrite Hk, split_go_skip.
      rewrite concat_cons_empty by apply split_go_nonempty.
      rewrite IH; [done|]. cbn [String.length] in Hle. rewrite string_length_app in Hle. lia.
    + rewrite concat_cons_head, IH; [done|]. cbn [String.length] in Hle. lia.
Qed.

Lemma prefix_self sub s : String.prefix sub (sub ++ s) = true.
Proof.
  induction sub as [|a sub IH]; [by destruct s|]. rewrite str_app_cons. cbn [String.prefix].
  destruct (ascii_dec a a); [apply IH|congruence].
Qed.

Lemma split_go_sep sep x : sep <> "" -> split_go sep 0 (sep ++ x) = "" :: split_go sep 0 x.
Proof.
  destruct sep as [|c sep']; [done|]. intros _. rewrite str_app_cons. cbn [split_go].
  rewrite <- str_app_cons, prefix_self.
  replace (String.length (String c sep') - 1) with (String.length sep') by (simpl; lia).
  by rewrite split_go_skip.
Qed.

(** ** Matching [INLINE_MEDIA_PATTERN] *)

Lemma rem_seq r1 r2 s y :
  y ∈ rem (RSeq r1 r2) s <-> exists x, x ∈ rem r1 s /\ y ∈ rem r2 x.
Proof.
  simpl. rewrite list_elem_of_In, in_flat_map.
  split; intros (x & Hx & Hy); exists x; split; apply list_elem_of_In; done.
Qed.

Lemma rem_alt r1 r2 s y :
  y ∈ rem (RAlt r1 r2) s <-> y ∈ rem r1 s \/ y ∈ rem r2 s.
Proof. simpl. apply elem_of_app. Qed.

Lemma rem_opt r s y : y ∈ rem (ROpt r) s <-> y ∈ rem r s \/ y = s.
Proof. simpl. by rewrite elem_of_app, list_elem_of_singleton. Qed.

Lemma rem_class p s y :
  y ∈ rem (RClass p) s <-> exists c, s = String c y /\ p c = true.
Proof.
  simpl. destruct s as [|c s].
  - split; [by intros ?%elem_of_nil|]. intros (c & ? & _). discriminate.
  - destruct (p c) eqn:Hc.
    + rewrite list_elem_of_singleton. split; [intros ->; eauto|].
      intros (c' & [= -> ->] & _). done.
    + split; [by intros ?%elem_of_nil|]. intros (c' & [= -> ->] & ?). congruence.
Qed.

Lemma rem_lit lit s y : y ∈ rem (rlit lit) s <-> s = lit ++ y.
Proof.
  revert s. induction lit as [|c lit IH]; intros s; simpl rlit.
  - simpl. rewrite list_elem_of_singleton. split; intros ->; done.
  - rewrite rem_seq. split.
    + intros (x & Hx & Hy). apply rem_class in Hx as (c' & -> & Hc').
      apply Ascii.eqb_eq in Hc' as ->. apply IH in Hy as ->. done.
    + intros ->. exists (lit ++ y). split; [|by apply IH].
      apply rem_class. exists c. split; [done|]. apply Ascii.eqb_refl.
Qed.

Lemma rem_star_app p a y :
  string_forallb p a = true -> y ∈ rem (RStar p) (a ++ y).
Proof.
  simpl. induction a as [|c a IH]; simpl; intros Ha; [destruct y; left|].
  apply andb_true_iff in Ha as [Hc Ha]. rewrite Hc. right. by apply IH.
Qed.

Lemma rem_not lit s y :
  y ∈ rem (RNotFollowedBy lit) s <-> y = s /\ String.prefix lit s = false.
Proof.
  simpl. destruct (String.prefix lit s).
  - split; [by intros ?%elem_of_nil|]. intros [_ ?]. discriminate.
  - rewrite list_elem_of_singleton. tauto.
Qed.

Lemma re_search_spec r s :
  re_search r s = true <-> exists p t y, s = p ++ t /\ y ∈ rem r t.
Proof.
  induction s as [|c s IH]; simpl.
  - rewrite orb_false_r. split.
    + destruct (rem r "") as [|y ys] eqn:Hr; [done|]. intros _.
      exists "", "", y. rewrite Hr. split; [done|left].
    + intros (p & t & y & Hs & Hy). destruct p; [|discriminate]. change ("" ++ ?x) with x in Hs. subst t.
      destruct (rem r ""); [by apply elem_of_nil in Hy|done].
  - rewrite orb_true_iff, IH. split.
    + intros [Hr|(p & t & y & -> & Hy)].
      * destruct (rem r (String c s)) as [|y ys] eqn:Hrem; [done|].
        exists "", (String c s), y. rewrite Hrem. split; [done|left].
      * exists (String c p), t, y. done.
    + intros (p & t & y & Hs & Hy). destruct p as [|c' p].
      * left. change ("" ++ ?x) with x in Hs. subst t.
        destruct (rem r (String c s)); [by apply elem_of_nil in Hy|done].
      * right. rewrite str_app_cons in Hs. injection Hs as -> ->. eauto.
Qed.



Lemma contains_prefix sub s : String.prefix sub s = true -> contains sub s = true.
Proof. intros H. destruct s; cbn [contains]; rewrite H; done. Qed.

Lemma contains_cons sub c s : contains sub s = true -> contains sub (String c s) = true.
Proof. intros H. cbn [contains]. rewrite H. apply orb_true_r. Qed.

Lemma contains_intro sub p s : contains sub (p ++ sub ++ s) = true.
Proof.
  induction p as [|c p IH].
  - change ("" ++ ?x) with x. apply contains_prefix, prefix_self.
  - rewrite str_app_cons. by apply contains_cons.
Qed.

Lemma search_needs_blank_line body :
  re_search INLINE_MEDIA_PATTERN body = true -> contains blank_line body = true.
Proof.
  intros (p & t & y & -> & Hy)%re_search_spec.
  unfold INLINE_MEDIA_PATTERN in Hy. apply rem_seq in Hy as (x & Hx & _).
  apply rem_lit in Hx as ->. apply contains_intro.
Qed.

(** ** Locality of the reconciler *)

Lemma local_ret {A} n (a : A) : local_to n (mret a).
Proof. intros d rest Hd. done. Qed.

Lemma local_raise {A} n e : local_to n (raise (A:=A) e).
Proof. intros d rest Hd. done. Qed.

Lemma local_bind {A B} n (m : M A) (f : A -> M B) :
  local_to n m -> (forall a, local_to n (f a)) -> local_to n (m ≫= f).
Proof.
  intros Hm Hf d rest Hd. rewrite !M_bind_run.
  destruct (Hm d rest Hd) as [Hl Heq]. rewrite Heq.
  destruct (m d) as [[a|e] d'] eqn:Hmd; simpl in *; [by apply Hf|done].
Qed.

Lemma local_bind_lift {A B} n (r : result A) (f : A -> M B) :
  (forall a, r = Ok a -> local_to n (f a)) -> local_to n (lift r ≫= f).
Proof.
  intros Hf d rest Hd. rewrite !M_bind_run. unfold lift.
  destruct r as [a|e]; simpl; [by apply Hf|done].
Qed.

Lemma local_set n index el : index < n -> local_to n (set_document index el).
Proof.
  intros Hi d rest Hd. unfold set_document. simpl.
  rewrite length_insert, insert_app_l by lia. done.
Qed.

Lemma local_for_each {A} n (body : A -> M unit) l :
  (forall x, x ∈ l -> local_to n (body x)) -> local_to n (for_each body l).
Proof.
  induction l as [|x l IH]; intros Hb; simpl; [apply local_ret|].
  apply local_bind; [apply Hb; left|intros _; apply IH].
  intros y Hy. apply Hb. by right.
Qed.

Lemma local_for_enumerate {A} n (body : nat -> A -> M unit) start l :
  (forall k x, l !! k = Some x -> local_to n (body (start + k) x)) ->
  local_to n (for_enumerate body start l).
Proof.
  revert start. induction l as [|x l IH]; intros start Hb; simpl; [apply local_ret|].
  apply local_bind.
  - specialize (Hb 0 x eq_refl). by rewrite Nat.add_0_r in Hb.
  - intros _. apply IH. intros k y Hk. rewrite Nat.add_succ_comm. by apply (Hb (S k)).
Qed.

Lemma local_replace_link set_pop n parsed index it :
  index < n -> local_to n (replace_link set_pop parsed index it).
Proof.
  intros Hi. unfold replace_link. case_decide; [|apply local_ret].
  apply local_bind_lift; intros u _. apply local_bind_lift; intros url _.
  destruct (matched_ids parsed url); [apply local_ret|].
  apply local_bind_lift; intros kind _.
  apply local_bind; [|intros; by apply local_set].
  case_decide; [|apply local_ret].
  apply local_bind_lift; intros t _. apply local_ret.
Qed.

Lemma local_replace_element set_pop n parsed index blk :
  index < n -> local_to n (replace_element set_pop parsed index blk).
Proof.
  intros Hi. unfold replace_element. destruct (el_c blk).
  - case_decide; [apply local_ret|apply local_raise].
  - apply local_for_each. intros. by apply local_replace_link.
  - apply local_raise.
Qed.

Section Prefix.

Variable set_pop : list string -> string.

(** The run over a document, cut after its first [n] blocks. *)
Lemma reconcile_split self mm parsed doc n :
  media_metadata self = Some mm -> parse_media_types mm = Ok parsed ->
  _replace_richtext_links set_pop self (take n doc) =
    for_enumerate (replace_element set_pop parsed) 0 (take n doc) (take n doc) /\
  length (snd (_replace_richtext_links set_pop self (take n doc))) = length (take n doc) /\
  _replace_richtext_links set_pop self doc =
  match _replace_richtext_links set_pop self (take n doc) with
  | (Ok _, d') => for_enumerate (replace_element set_pop parsed) (length (take n doc))
                    (drop n doc) (app d' (drop n doc))
  | (Err e, d') => (Err e, app d' (drop n doc))
  end.
Proof.
  intros Hmm Hp.
  assert (Hpre : _replace_richtext_links set_pop self (take n doc) =
    for_enumerate (replace_element set_pop parsed) 0 (take n doc) (take n doc))
    by (rewrite (reconcile_some _ _ _ _ Hmm), Hp; done).
  assert (Hloc : local_to (length (take n doc))
                   (for_enumerate (replace_element set_pop parsed) 0 (take n doc))).
  { apply local_for_enumerate. intros k x Hk. apply local_replace_element.
    simpl. by eapply lookup_lt_Some. }
  destruct (Hloc (take n doc) (drop n doc) eq_refl) as [Hlen Heq].
  split; [done|]. rewrite Hpre. split; [done|].
  rewrite (reconcile_some _ _ _ _ Hmm), Hp.
  assert (Hd : for_enumerate (replace_element set_pop parsed) 0 doc doc =
               for_enumerate (replace_element set_pop parsed) 0
                 (app (take n doc) (drop n doc)) (app (take n doc) (drop n doc)))
    by (by rewrite take_drop).
  rewrite Hd, for_enumerate_app, Heq.
  destruct (for_enumerate (replace_element set_pop parsed) 0 (take n doc) (take n doc))
    as [[u|e] d'] eqn:Hrun; done.
Qed.

(** Once the run over the first [n] blocks raises, the whole run raises
    the same error: the writes made are kept and the later blocks are left
    as they were. *)
Lemma reconcile_prefix_Err self doc n e :
  fst (_replace_richtext_links set_pop self (take n doc)) = Err e ->
  _replace_richtext_links set_pop self doc =
  (Err e, app (snd (_replace_richtext_links set_pop self (take n doc))) (drop n doc)).
Proof.
  intros Herr. destruct (media_metadata self) as [mm|] eqn:Hmm.
  - destruct (parse_media_types mm) as [parsed|e'] eqn:Hp.
    + destruct (reconcile_split self mm parsed doc n Hmm Hp) as (_ & _ & ->).
      destruct (_replace_richtext_links set_pop self (take n doc)) as [r d'].
      simpl in Herr. subst r. done.
    + rewrite !(reconcile_some _ _ _ _ Hmm), Hp in *. simpl in *.
      injection Herr as ->. by rewrite take_drop.
  - unfold _replace_richtext_links in Herr. rewrite Hmm in Herr. discriminate.
Qed.

(** The first [n] blocks of the result are those of the run over the
    first [n] blocks. *)
Lemma reconcile_prefix_take self doc n :
  take n (snd (_replace_richtext_links set_pop self doc)) =
  snd (_replace_richtext_links set_pop self (take n doc)).
Proof.
  destruct (media_metadata self) as [mm|] eqn:Hmm;
    [|unfold _replace_richtext_links; by rewrite Hmm].
  destruct (parse_media_types mm) as [parsed|e] eqn:Hp;
    [|rewrite !(reconcile_some _ _ _ _ Hmm), Hp; done].
  destruct (reconcile_split self mm parsed doc n Hmm Hp) as (_ & Hlen & Hsplit).
  rewrite Hsplit.
  destruct (_replace_richtext_links set_pop self (take n doc)) as [[u|e] d'] eqn:Hrun;
    simpl in *.
  - set (m := length (take n doc)) in *.
    pose proof (for_enumerate_replace_preserves set_pop parsed m (drop n doc)
                  (app d' (drop n doc))) as [Hl Hfr].
    rewrite length_app in Hl.
    assert (Hm : m = Nat.min n (length doc)) by (unfold m; apply length_take).
    apply list_eq. intros j. rewrite lookup_take. case_decide as Hj.
    + destruct (decide (j < m)) as [Hjm|Hjm].
      * destruct (Hfr j) as [->|(el & _ & k & x & _ & Hk & _)]; [|lia].
        by rewrite lookup_app_l by lia.
      * rewrite (lookup_ge_None_2 d') by lia.
        apply lookup_ge_None_2. rewrite Hl, length_drop. lia.
    + symmetry. apply lookup_ge_None_2. lia.
  - rewrite length_take in Hlen. rewrite take_app, take_ge by lia.
    destruct (decide (n <= length doc)).
    + replace (n - length d') with 0 by lia. by rewrite take_0, app_nil_r.
    + by rewrite (drop_ge doc), take_nil, app_nil_r by lia.
Qed.

End Prefix.

Lemma for_each_app {A} (body : A -> M unit) l1 l2 d :
  for_each body (app l1 l2) d =
  match for_each body l1 d with
  | (Ok _, d') => for_each body l2 d'
  | (Err e, d') => (Err e, d')
  end.
Proof.
  revert d. induction l1 as [|x l1 IH]; intros d; [done|]. simpl.
  rewrite !M_bind_run. destruct (body x d) as [[u|e] d1]; [apply IH|done].
Qed.

Lemma for_each_no_links set_pop parsed index l d :
  (forall x, x ∈ l -> item_e x <> Some "link") ->
  for_each (replace_link set_pop parsed index) l d = (Ok tt, d).
Proof.
  revert d. induction l as [|x l IH]; intros d Hl; [done|]. simpl.
  rewrite M_bind_run. unfold replace_link. rewrite decide_False by (apply Hl; left).
  simpl. apply IH. intros y Hy. apply Hl. by right.
Qed.

(** A link whose stripped URL has matching ids writes the leaf for the
    popped id. *)
Lemma replace_link_write set_pop parsed index u t url d m ms kind :
  strip_url u = Ok url -> matched_ids parsed url = m :: ms ->
  parsed !! set_pop (m :: ms) = Some kind ->
  replace_link set_pop parsed index (mk_item (Some "link") (Some u) (Some t)) d =
  (Ok tt, <[index := mk_element (Some kind) (Some (set_pop (m :: ms)))
                       (if decide (t = u) then CNone else CStr t)]> d).
Proof.
  intros Hurl Hm Hk. unfold replace_link. rewrite decide_True by done.
  unfold mbind, M_bind, mret, M_ret, lift, set_document.
  cbn -[strip_url matched_ids lookup decide]. rewrite Hurl, Hm, Hk.
  cbn -[strip_url matched_ids lookup decide].
  destruct (decide (t = u)) as [->|Htu].
  - rewrite decide_False by tauto. done.
  - rewrite decide_True by congruence. done.
Qed.

(** ** Extra properties *)

(** X1: joining the pieces of [s.split(sep)] with [sep] gives [s] back for
    every non-empty separator, as [sep.join(s.split(sep)) == s] in Python;
    the same holds for the split on ["?"] of line 42. *)
Theorem split_join_roundtrip sep s :
  sep <> "" ->
  String.concat sep (str_split sep s) = s /\
  String.concat "?" (split_chars is_qmark s) = s.
Proof.
  intros Hsep. split; [by apply split_go_concat|].
  apply (split_chars_concat is_qmark "?"%char). intros c Hc. by apply Ascii.eqb_eq.
Qed.

(** X2: for a URL [https://{path}{query}] with no further ["https://"],
    no ['?'] in [path], and [query] empty or starting with ['?'], the URL
    stripping of line 42 returns [path]. *)
Theorem strip_url_path path query :
  contains "https://" (path ++ query) = false ->
  string_forallb (fun c => negb (is_qmark c)) path = true ->
  (query = "" \/ exists q, query = String "?" q) ->
  strip_url ("https://" ++ path ++ query) = Ok path.
Proof.
  intros Hno Hpath Hq. unfold strip_url, str_split.
  rewrite split_go_sep, split_go_none by done.
  change (list_index 1 ["" ; path ++ query]) with (Ok (path ++ query)). simpl.
  destruct Hq as [->|[q ->]].
  - rewrite string_app_empty, split_chars_none by done. done.
  - rewrite split_chars_app by done. done.
Qed.

(** X3: [INLINE_MEDIA_PATTERN] only matches a body containing a blank line
    (two consecutive newlines); any other body is submitted as text. *)
Theorem inline_media_pattern_needs_blank_line body :
  re_search INLINE_MEDIA_PATTERN body = true -> contains blank_line body = true.
Proof. apply search_needs_blank_line. Qed.

(** X4: a body with a blank line followed by a letter or digit matches
    [INLINE_MEDIA_PATTERN], unless the text after the blank line starts
    with ["https"]: an ordinary paragraph break is enough to switch [edit]
    to rich text. *)
Theorem inline_media_pattern_paragraph p c t :
  is_alnum c = true -> String.prefix "https" (String c t) = false ->
  re_search INLINE_MEDIA_PATTERN (p ++ blank_line ++ String c t) = true.
Proof.
  intros Hc Hh. apply re_search_spec. exists p, (blank_line ++ String c t), t.
  split; [done|]. unfold INLINE_MEDIA_PATTERN.
  apply rem_seq. exists (String c t). split; [by apply rem_lit|].
  apply rem_seq. exists (String c t). split; [apply rem_opt; by right|].
  apply rem_seq. exists (String c t). split; [apply rem_opt; by right|].
  apply rem_seq. exists (String c t). split; [apply rem_opt; by right|].
  apply rem_seq. exists t. split; [|apply rem_opt; by right].
  apply rem_alt. right.
  apply rem_seq. exists (String c t). split; [by apply rem_not|].
  apply rem_seq. exists t. split; [|apply rem_opt; by right].
  apply rem_seq. exists t. split; [apply rem_class; eauto|].
  apply (rem_star_app _ "" t). done.
Qed.

(** X5: a body with a blank line followed by a Markdown image
    [![alt](https://i.redd.it/...] or [![alt](https://preview.redd.it/...],
    with no newline in [alt], matches [INLINE_MEDIA_PATTERN]. *)
Theorem inline_media_pattern_image_link p alt host rest :
  string_forallb py_dot alt = true -> host ∈ ["i"; "preview"] ->
  re_search INLINE_MEDIA_PATTERN
    (p ++ blank_line ++ "![" ++ alt ++ "](https://" ++ host ++ ".redd.it" ++ rest) = true.
Proof.
  intros Halt Hhost. apply re_search_spec.
  exists p, (blank_line ++ "![" ++ alt ++ "](https://" ++ host ++ ".redd.it" ++ rest), rest.
  split; [done|]. unfold INLINE_MEDIA_PATTERN.
  apply rem_seq. exists ("![" ++ alt ++ "](https://" ++ host ++ ".redd.it" ++ rest).
  split; [by apply rem_lit|].
  apply rem_seq. exists ("[" ++ alt ++ "](https://" ++ host ++ ".redd.it" ++ rest).
  split; [apply rem_opt; left; apply rem_class; exists "!"%char; done|].
  apply rem_seq. exists ("(https://" ++ host ++ ".redd.it" ++ rest). split.
  { apply rem_opt. left.
    apply rem_seq. exists (alt ++ "](https://" ++ host ++ ".redd.it" ++ rest).
    split; [apply rem_class; exists "["%char; done|].
    apply rem_seq. exists ("](https://" ++ host ++ ".redd.it" ++ rest).
    split; [by apply rem_star_app|].
    apply rem_class. exists "]"%char. done. }
  apply rem_seq. exists ("https://" ++ host ++ ".redd.it" ++ rest).
  split; [apply rem_opt; left; apply rem_class; exists "("%char; done|].
  apply rem_seq. exists rest. split; [|apply rem_opt; by right].
  apply rem_alt. left.
  apply rem_seq. exists (host ++ ".redd.it" ++ rest). split; [by apply rem_lit|].
  apply rem_seq. exists rest. split; [|apply (rem_star_app _ "" rest); done].
  apply rem_alt. left.
  apply rem_seq. exists (".redd.it" ++ rest). split; [|by apply rem_lit].
  apply rem_alt. apply elem_of_cons in Hhost as [->|Hhost].
  - right. by apply rem_lit.
  - apply elem_of_cons in Hhost as [->|Hhost]; [|by apply elem_of_nil in Hhost].
    left. by apply rem_lit.
Qed.

(** X6: an edit without inline media whose body has no blank line issues a
    single request, the edit request with the body as text; nothing is
    converted and the reconciler does not run, whatever
    [preserve_inline_media] is. *)
Theorem edit_plain_text set_pop fmt upload convert dumps self body preserve :
  contains blank_line body = false ->
  edit set_pop (re_search INLINE_MEDIA_PATTERN) fmt upload convert dumps self body
    preserve [] =
  ([PostEdit (mk_edit_data (fullname self) (validate_on_submit self) (Text body))], Ok tt).
Proof.
  intros Hno. unfold edit, edit_prepare.
  destruct (re_search INLINE_MEDIA_PATTERN body) eqn:Hs; [|done].
  apply search_needs_blank_line in Hs. congruence.
Qed.

(** X7: with a non-empty [inline_media], [edit] first uploads each media
    in the dict's order and formats the body with each placeholder bound to
    its upload's result.  When [body.format] raises, [edit] raises the same
    exception after the uploads, and converts and posts nothing.  When it
    succeeds and [preserve_inline_media] is false, [edit] converts the
    formatted body and posts the converted document as rich text, whatever
    the body looks like. *)
Theorem edit_inline_media_requests set_pop search fmt upload convert dumps self body
    inline_media preserve :
  inline_media <> [] ->
  let uploads := map (fun '(_, media) => UploadInlineMedia media) inline_media in
  let values := map (fun '(placeholder, media) => (placeholder, upload media))
                  inline_media in
  (forall e, fmt body values = Err e ->
   edit set_pop search fmt upload convert dumps self body preserve inline_media =
   (uploads, Err e)) /\
  (forall body', fmt body values = Ok body' ->
   edit set_pop search fmt upload convert dumps self body false inline_media =
   (app uploads
        [ConvertToFancypants body';
         PostEdit (mk_edit_data (fullname self) (validate_on_submit self)
                     (RichtextJson (dumps (convert body'))))], Ok tt)).
Proof.
  intros Hne. destruct inline_media as [|p im]; [done|]. cbv zeta.
  split; intros x Hfmt; unfold edit, edit_prepare; rewrite Hfmt; reflexivity.
Qed.

(** X8: in rich-text mode with [preserve_inline_media], when the reconciler
    goes through, the edit request carries the JSON of the document as the
    reconciler left it, after the uploads and the conversion. *)
Theorem edit_posts_reconciled_document set_pop search fmt upload convert dumps self body
    inline_media body' uploads :
  edit_prepare search fmt upload body inline_media = (Ok body', uploads, true) ->
  fst (_replace_richtext_links set_pop self (convert body')) = Ok tt ->
  edit set_pop search fmt upload convert dumps self body true inline_media =
  (app uploads
     [ConvertToFancypants body';
      PostEdit (mk_edit_data (fullname self) (validate_on_submit self)
                  (RichtextJson (dumps (snd (_replace_richtext_links set_pop self
                                               (convert body'))))))], Ok tt).
Proof.
  intros Hprep Hok. unfold edit. rewrite Hprep.
  destruct (_replace_richtext_links set_pop self (convert body')) as [r d].
  simpl in Hok. subst r. done.
Qed.

Lemma foldl_delete_protected {V} (attrs : list string) (u : gmap string V) a :
  foldl (fun u attribute =>
           if decide (is_Some (u !! attribute)) then delete attribute u else u) u attrs !! a =
  if decide (a ∈ attrs) then None else u !! a.
Proof.
  revert u. induction attrs as [|x attrs IH]; intros u; cbn [foldl].
  - rewrite decide_False by (by intros ?%elem_of_nil). done.
  - rewrite IH. destruct (decide (a ∈ attrs)) as [Hin|Hnin].
    + rewrite (decide_True (P := a ∈ x :: attrs)) by (apply elem_of_cons; by right).
      done.
    + destruct (decide (a = x)) as [->|Hax].
      * rewrite (decide_True (P := x ∈ x :: attrs)) by (apply elem_of_cons; by left). case_decide as Hx; [by rewrite lookup_delete_eq|].
        destruct (u !! x); [|done]. exfalso. apply Hx. eauto.
      * rewrite (decide_False (P := a ∈ x :: attrs)) by (rewrite elem_of_cons; tauto).
        case_decide; [by rewrite lookup_delete_ne|done].
Qed.

(** X9: after a text edit, [self] takes every attribute of the returned
    object except the protected ones ([_fetched], [_reddit], [_submission],
    [replies], [subreddit]), which keep their values; attributes absent from
    the returned object are kept, and an empty response raises an
    [IndexError].  After a rich-text edit every key of the response
    overwrites [self]'s, protected or not. *)
Theorem edit_update_attributes {V} (self_dict : gmap string V) updated :
  match updated with
  | [] => update_from_text_edit self_dict updated = Err IndexError
  | obj :: _ =>
      exists new, update_from_text_edit self_dict updated = Ok new /\
        forall a, new !! a =
          if decide (a ∈ protected_attributes) then self_dict !! a
          else match obj !! a with Some v => Some v | None => self_dict !! a end
  end /\
  forall response a,
    update_from_richtext_edit self_dict response !! a =
    match response !! a with Some v => Some v | None => self_dict !! a end.
Proof.
  split.
  - destruct updated as [|obj rest]; [done|].
    eexists. split; [reflexivity|]. intros a.
    rewrite lookup_union, foldl_delete_protected.
    case_decide; [by destruct (self_dict !! a)|].
    by destruct (obj !! a), (self_dict !! a).
  - intros response a. unfold update_from_richtext_edit. rewrite lookup_union.
    by destruct (response !! a), (self_dict !! a).
Qed.

(** X10: the first [n] blocks of the reconciled document are those the
    reconciler produces on the first [n] blocks alone: what follows a block
    never changes how it is reconciled. *)
Theorem reconcile_prefix_locality set_pop self doc n :
  take n (snd (_replace_richtext_links set_pop self doc)) =
  snd (_replace_richtext_links set_pop self (take n doc)).
Proof. apply reconcile_prefix_take. Qed.

(** X11: when the reconciler raises on the first [n] blocks of a document,
    it raises the same error on the whole document; the writes made before
    the error are kept and the blocks after the first [n] are left as they
    were. *)
Theorem reconcile_prefix_error set_pop self doc n e :
  fst (_replace_richtext_links set_pop self (take n doc)) = Err e ->
  _replace_richtext_links set_pop self doc =
  (Err e, app (snd (_replace_richtext_links set_pop self (take n doc))) (drop n doc)).
Proof. apply reconcile_prefix_Err. Qed.

(** X12: with a [media_metadata] attribute, a block without a ["c"] field
    makes the reconciler raise ([for item in None]); it raises a
    [TypeError] there when the blocks before it went through.  Leaves the
    reconciler writes without a caption have no ["c"], so reconciling its
    own output raises. *)
Theorem reconcile_block_without_content set_pop self mm doc i blk :
  media_metadata self = Some mm -> doc !! i = Some blk -> el_c blk = CNone ->
  (exists e, fst (_replace_richtext_links set_pop self doc) = Err e) /\
  (fst (_replace_richtext_links set_pop self (take i doc)) = Ok tt ->
   fst (_replace_richtext_links set_pop self doc) = Err TypeError).
Proof.
  intros Hmm Hi Hc. split.
  - destruct (fst (_replace_richtext_links set_pop self doc)) as [[]|e] eqn:Hr; [|eauto].
    destruct (reconcile_Ok _ _ _ _ Hmm Hr) as (parsed & _ & Hall).
    specialize (Hall i blk [] Hi). unfold replace_element in Hall. by rewrite Hc in Hall.
  - intros Hpre. destruct (reconcile_Ok _ _ _ _ Hmm Hpre) as (parsed & Hp & _).
    destruct (reconcile_at _ _ _ _ _ _ _ Hmm Hp Hi Hpre) as (d1 & _ & Hrun).
    assert (Hel : replace_element set_pop parsed i blk d1 = (Err TypeError, d1))
      by (unfold replace_element; by rewrite Hc).
    destruct (Hrun _ _ Hel) as [_ Herr]. by rewrite (Herr _ eq_refl).
Qed.

(** X13: with a [media_metadata] attribute, an inline item tagged ["link"]
    without a ["u"] field makes the reconciler raise; when it is the first
    link item of its block and the blocks before went through, the error
    is [KeyError "u"]. *)
Theorem reconcile_link_without_url set_pop self mm doc i blk items it :
  media_metadata self = Some mm -> doc !! i = Some blk -> el_c blk = CList items ->
  it ∈ items -> item_e it = Some "link" -> item_u it = None ->
  (exists e, fst (_replace_richtext_links set_pop self doc) = Err e) /\
  (forall pre post, items = app pre (it :: post) ->
     (forall x, x ∈ pre -> item_e x <> Some "link") ->
     fst (_replace_richtext_links set_pop self (take i doc)) = Ok tt ->
     fst (_replace_richtext_links set_pop self doc) = Err (KeyError "u")).
Proof.
  intros Hmm Hi Hc Hit He Hu. split.
  - destruct (fst (_replace_richtext_links set_pop self doc)) as [[]|e] eqn:Hr; [|eauto].
    exfalso. destruct (reconcile_Ok _ _ _ _ Hmm Hr) as (parsed & _ & Hall).
    specialize (Hall i blk [] Hi). unfold replace_element in Hall. rewrite Hc in Hall.
    pose proof (for_each_Ok _ _ _ (fun x => replace_link_indep _ _ _ x) Hall it [] Hit)
      as Hl.
    revert Hl. unfold replace_link. rewrite decide_True by done.
    rewrite M_bind_run. unfold lift. rewrite Hu. done.
  - intros pre post -> Hpre Hok.
    destruct (reconcile_Ok _ _ _ _ Hmm Hok) as (parsed & Hp & _).
    destruct (reconcile_at _ _ _ _ _ _ _ Hmm Hp Hi Hok) as (d1 & _ & Hrun).
    assert (Hel : replace_element set_pop parsed i blk d1 = (Err (KeyError "u"), d1)).
    { unfold replace_element. rewrite Hc, for_each_app, for_each_no_links by done.
      cbn [for_each]. rewrite M_bind_run. unfold replace_link.
      rewrite decide_True by done. rewrite M_bind_run. unfold lift. by rewrite Hu. }
    destruct (Hrun _ _ Hel) as [_ Herr]. by rewrite (Herr _ eq_refl).
Qed.

(** X14: provided the reconciler raises nothing on the blocks up to and
    including this one, the leaf that replaces a block comes from its last
    link item: for a link to [u] with display text [t] whose URL has a
    token that is a key of [media_metadata], followed only by items that
    are not links, the block becomes the leaf of a matching id of [u],
    whatever the earlier link items wrote.  (Without that proviso the block
    may stay: an earlier link without ["https://"] raises first.) *)
Theorem reconcile_last_matching_link set_pop self mm doc i blk pre post u t url :
  pop_spec set_pop ->
  media_metadata self = Some mm -> doc !! i = Some blk ->
  el_c blk = CList (app pre (mk_item (Some "link") (Some u) (Some t) :: post)) ->
  strip_url u = Ok url ->
  (exists tok, tok ∈ url_tokens url /\ is_Some (mm !! tok)) ->
  (forall x, x ∈ post -> item_e x <> Some "link") ->
  fst (_replace_richtext_links set_pop self (take (S i) doc)) = Ok tt ->
  exists mid kind, mid ∈ url_tokens url /\ mm !! mid ≫= mapped_kind = Some kind /\
    snd (_replace_richtext_links set_pop self doc) !! i =
    Some (mk_element (Some kind) (Some mid) (if decide (t = u) then CNone else CStr t)).
Proof.
  intros Hpop Hmm Hi Hc Hurl (tok & Htok & Hmmtok) Hpost Hok1.
  assert (Hok : fst (_replace_richtext_links set_pop self (take i doc)) = Ok tt).
  { destruct (fst (_replace_richtext_links set_pop self (take i doc))) as [[]|e] eqn:Hr;
      [done|].
    assert (Htt : take i (take (S i) doc) = take i doc)
      by (rewrite take_take, Nat.min_l by lia; done).
    rewrite <- Htt in Hr. apply reconcile_prefix_Err in Hr. by rewrite Hr in Hok1. }
  destruct (reconcile_Ok _ _ _ _ Hmm Hok1) as (parsed & Hp & Hall).
  destruct (parse_media_types_Ok _ _ Hp) as [Hkinds Hparsed].
  assert (Hi1 : take (S i) doc !! i = Some blk) by (rewrite lookup_take_lt; [done|lia]).
  destruct (reconcile_at _ _ _ _ _ _ _ Hmm Hp Hi Hok) as (d1 & Hlen1 & Hrun).
  set (it := mk_item (Some "link") (Some u) (Some t)) in *.
  pose proof (Hall i blk d1 Hi1) as Hblk. unfold replace_element in Hblk.
  rewrite Hc in Hblk.
  (* the items before the link go through and keep the length *)
  destruct (for_each (replace_link set_pop parsed i) pre d1) as [rp dp] eqn:Hpre_run.
  assert (Hrp : rp = Ok tt).
  { change rp with (fst (rp, dp)). rewrite <- Hpre_run. apply for_each_all_Ok.
    intros x d' Hx.
    apply (for_each_Ok _ _ _ (fun x => replace_link_indep _ _ _ x) Hblk x d').
    apply elem_of_app. by left. }
  subst rp.
  assert (Hlenp : length dp = length d1).
  { pose proof (for_each_preserves
                  (fun j el => j = i /\ link_leaf set_pop parsed blk el)
                  (replace_link set_pop parsed i) pre) as Hpres.
    destruct (Hpres (fun x Hx => replace_link_preserves set_pop parsed i blk _ x Hc
                                  (proj2 (elem_of_app _ _ x) (or_introl Hx))) d1)
      as [Hl _].
    by rewrite Hpre_run in Hl. }
  (* the link writes the leaf of a matching id *)
  destruct (matched_ids parsed url) as [|m ms] eqn:Hm.
  { exfalso. assert (Htm : tok ∈ matched_ids parsed url).
    { apply matched_ids_elem. split; [|done]. rewrite Hparsed.
      destruct Hmmtok as [v Hv]. rewrite Hv. simpl. by apply (Hkinds tok). }
    rewrite Hm in Htm. by apply elem_of_nil in Htm. }
  assert (Hmid : set_pop (m :: ms) ∈ matched_ids parsed url) by (rewrite Hm; by apply Hpop).
  apply matched_ids_elem in Hmid as [[kind Hkind] Hmidtok].
  assert (Hel : replace_element set_pop parsed i blk d1 =
                (Ok tt, <[i := mk_element (Some kind) (Some (set_pop (m :: ms)))
                                  (if decide (t = u) then CNone else CStr t)]> dp)).
  { unfold replace_element. rewrite Hc, for_each_app, Hpre_run. cbn [for_each].
    rewrite M_bind_run. unfold it. rewrite (replace_link_write _ _ _ _ _ url _ m ms kind)
      by done.
    by apply for_each_no_links. }
  destruct (Hrun _ _ Hel) as [Hok2 _]. destruct (Hok2 eq_refl) as [-> _].
  exists (set_pop (m :: ms)), kind. split; [done|]. split; [by rewrite <- Hparsed|].
  apply list_lookup_insert_eq. rewrite Hlenp, Hlen1. by eapply lookup_lt_Some.
Qed.

(** X15: with a [media_metadata] attribute, a descriptor without an ["e"]
    field makes the reconciler raise a [KeyError] while building
    [parsed_media_types], before any block is looked at: the document is
    returned untouched. *)
Theorem reconcile_descriptor_without_kind set_pop self mm doc k :
  media_metadata self = Some mm -> mm !! k = Some None ->
  exists key, _replace_richtext_links set_pop self doc = (Err (KeyError key), doc).
Proof.
  intros Hmm Hk. rewrite (reconcile_some _ _ _ _ Hmm).
  destruct (parse_media_types mm) as [parsed|e] eqn:Hp.
  - destruct (parse_media_types_Ok _ _ Hp) as [Hall _].
    destruct (Hall k _ Hk) as [x Hx]. discriminate.
  - destruct (parse_media_types_Err _ _ Hp) as [key ->]. eauto.
Qed.

(** ** Witnesses *)

Lemma reconcile_media_link_witness :
  snd (_replace_richtext_links pop_first sample_self [sample_link_block]) !! 0 =
  Some (mk_element (Some "img") (Some "abc") (CStr "caption text")).
Proof.
  apply (reconcile_media_link pop_first sample_self sample_media_metadata
           [sample_link_block] 0 sample_link_block "abc" "img" "caption text").
  - exact pop_first_spec.
  - reflexivity.
  - vm_compute. reflexivity.
  - reflexivity.
  - intros k Hk Hne. vm_compute in Hk.
    repeat (apply elem_of_cons in Hk as [->|Hk]; [vm_compute; reflexivity|]).
    by apply elem_of_nil in Hk.
  - reflexivity.
  - reflexivity.
  - vm_compute. reflexivity.
Defined.

Lemma media_kinds_and_unknown_kind_witness :
  exists key, _replace_richtext_links pop_first
    (mk_editable (Some {["xyz" := Some "Gallery"]}) "t1_abc" true) [sample_link_block] =
  (Err (KeyError key), [sample_link_block]).
Proof.
  apply (proj2 (proj2 (proj2 (proj2 media_kinds_and_unknown_kind)))
           pop_first _ {["xyz" := Some "Gallery"]} _ "xyz" "Gallery").
  - reflexivity.
  - vm_compute. reflexivity.
  - intros Hin. repeat (apply elem_of_cons in Hin as [Hin|Hin]; [discriminate|]).
    by apply elem_of_nil in Hin.
Defined.

Lemma reconcile_unmatched_block_witness :
  snd (_replace_richtext_links pop_first sample_self [sample_page_block]) !! 0 =
  Some sample_page_block /\
  fst (_replace_richtext_links pop_first sample_self (take 1 [sample_page_block])) = Ok tt.
Proof.
  assert (Hlinks : forall it,
            it ∈ [mk_item (Some "link") (Some "https://example.com/page?x=1") (Some "page")] ->
            item_e it = Some "link" ->
            exists u url, item_u it = Some u /\ strip_url u = Ok url /\
              forall tok, tok ∈ url_tokens url -> sample_media_metadata !! tok = None).
  { intros it Hit _. apply elem_of_cons in Hit as [->|Hit]; [|by apply elem_of_nil in Hit].
    exists "https://example.com/page?x=1", "example.com/page".
    split; [reflexivity|]. split; [vm_compute; reflexivity|].
    intros tok Htok. vm_compute in Htok.
    repeat (apply elem_of_cons in Htok as [->|Htok]; [vm_compute; reflexivity|]).
    by apply elem_of_nil in Htok. }
  destruct (reconcile_unmatched_block pop_first sample_self sample_media_metadata
              [sample_page_block] 0 sample_page_block
              [mk_item (Some "link") (Some "https://example.com/page?x=1") (Some "page")]
              eq_refl eq_refl eq_refl Hlinks) as [Hsame Hnext].
  split; [exact Hsame|]. apply Hnext. vm_compute. reflexivity.
Defined.

Lemma reconciled_id_in_url_witness :
  snd (_replace_richtext_links pop_first sample_self [sample_link_block]) !! 0 =
  [sample_link_block] !! 0 \/
  exists mm blk items it u url mid el,
    media_metadata sample_self = Some mm /\ [sample_link_block] !! 0 = Some blk /\
    snd (_replace_richtext_links pop_first sample_self [sample_link_block]) !! 0 = Some el /\
    el_id el = Some mid /\ is_Some (mm !! mid) /\
    el_c blk = CList items /\ it ∈ items /\ item_e it = Some "link" /\
    item_u it = Some u /\ strip_url u = Ok url /\ mid ∈ url_tokens url.
Proof. apply (reconciled_id_in_url pop_first sample_self _ pop_first_spec 0). Defined.

Lemma reconcile_string_block_witness :
  snd (_replace_richtext_links pop_first sample_self [sample_bad_leaf]) !! 0 =
  Some sample_bad_leaf /\
  _replace_richtext_links pop_first (mk_editable None "t1_abc" true) [sample_bad_leaf] =
  (Ok tt, [sample_bad_leaf]) /\
  fst (_replace_richtext_links pop_first sample_self (take 1 [sample_gif_leaf])) = Ok tt /\
  fst (_replace_richtext_links pop_first sample_self [sample_bad_leaf]) =
  Err (AssertionError schema_msg).
Proof.
  destruct (reconcile_string_block pop_first sample_self [sample_bad_leaf] 0
              sample_bad_leaf "text" eq_refl eq_refl) as [H1 [_ H3]].
  destruct (reconcile_string_block pop_first (mk_editable None "t1_abc" true)
              [sample_bad_leaf] 0 sample_bad_leaf "text" eq_refl eq_refl) as [_ [H2 _]].
  destruct (reconcile_string_block pop_first sample_self [sample_gif_leaf] 0
              sample_gif_leaf "cap" eq_refl eq_refl) as [_ [_ H4]].
  split; [exact H1|]. split; [apply H2; reflexivity|]. split.
  - apply (proj1 (H4 sample_media_metadata eq_refl)); [left|vm_compute; reflexivity].
  - apply (proj2 (H3 sample_media_metadata eq_refl)).
    + intros Hin. repeat (apply elem_of_cons in Hin as [Hin|Hin]; [discriminate|]).
      by apply elem_of_nil in Hin.
    + vm_compute. reflexivity.
Defined.

Lemma reconcile_no_media_witness :
  _replace_richtext_links pop_first (mk_editable None "t1_abc" true) [sample_link_block] =
  (Ok tt, [sample_link_block]) /\
  snd (_replace_richtext_links pop_first (mk_editable (Some ∅) "t1_abc" true)
         [sample_link_block]) = [sample_link_block].
Proof.
  split.
  - apply (proj1 (reconcile_no_media pop_first (mk_editable None "t1_abc" true)
                    [sample_link_block])). reflexivity.
  - apply (proj2 (reconcile_no_media pop_first (mk_editable (Some ∅) "t1_abc" true)
                    [sample_link_block])). reflexivity.
Defined.

Lemma reconcile_no_links_witness :
  snd (_replace_richtext_links pop_first sample_self [sample_text_block; sample_gif_leaf]) =
  [sample_text_block; sample_gif_leaf].
Proof.
  apply reconcile_no_links. intros blk items it Hblk Hc Hit.
  apply elem_of_cons in Hblk as [->|Hblk].
  - injection Hc as <-. apply elem_of_cons in Hit as [->|Hit]; [discriminate|].
    by apply elem_of_nil in Hit.
  - apply elem_of_cons in Hblk as [->|Hblk]; [discriminate|by apply elem_of_nil in Hblk].
Defined.

Lemma reconcile_in_place_witness :
  length (snd (_replace_richtext_links pop_first sample_self
                 [sample_link_block; sample_page_block])) = 2 /\
  (snd (_replace_richtext_links pop_first sample_self
          [sample_link_block; sample_page_block]) !! 0 =
   [sample_link_block; sample_page_block] !! 0 \/
   exists mm blk el, media_metadata sample_self = Some mm /\
     [sample_link_block; sample_page_block] !! 0 = Some blk /\
     snd (_replace_richtext_links pop_first sample_self
            [sample_link_block; sample_page_block]) !! 0 = Some el /\
     media_leaf_of mm blk el).
Proof.
  destruct (reconcile_in_place pop_first sample_self [sample_link_block; sample_page_block]
              pop_first_spec) as [Hlen Hat].
  split; [exact Hlen|apply Hat].
Defined.

Lemma reconcile_link_without_https_witness :
  exists e, fst (_replace_richtext_links pop_first sample_self
    [mk_element (Some "par") None
       (CList [mk_item (Some "link") (Some "http://example.com") (Some "x")])]) = Err e.
Proof.
  apply (reconcile_link_without_https pop_first sample_self sample_media_metadata _ 0
           (mk_element (Some "par") None
              (CList [mk_item (Some "link") (Some "http://example.com") (Some "x")]))
           [mk_item (Some "link") (Some "http://example.com") (Some "x")]
           (mk_item (Some "link") (Some "http://example.com") (Some "x"))
           "http://example.com").
  - reflexivity.
  - reflexivity.
  - reflexivity.
  - left.
  - reflexivity.
  - reflexivity.
  - vm_compute. reflexivity.
Defined.

Lemma edit_reconcile_error_blocks_post_witness :
  snd (edit pop_first (fun _ => true) (fun b _ => Ok b) im_path (fun _ => [sample_bad_leaf])
         (fun _ => "") sample_self "![img](abc)" true []) = Err (AssertionError schema_msg) /\
  PostEdit (mk_edit_data "t1_abc" true (RichtextJson ""))
    ∉ fst (edit pop_first (fun _ => true) (fun b _ => Ok b) im_path
             (fun _ => [sample_bad_leaf]) (fun _ => "") sample_self "![img](abc)" true []).
Proof.
  destruct (edit_reconcile_error_blocks_post pop_first (fun _ => true) (fun b _ => Ok b) im_path
              (fun _ => [sample_bad_leaf]) (fun _ => "") sample_self "![img](abc)" []
              "![img](abc)" [] (AssertionError schema_msg) eq_refl) as [Hr Hno].
  - vm_compute. reflexivity.
  - split; [exact Hr|apply Hno].
Defined.

Lemma split_join_roundtrip_witness :
  String.concat "https://" (str_split "https://" "see https://i.redd.it/abc?amp=1") =
  "see https://i.redd.it/abc?amp=1" /\
  String.concat "?" (split_chars is_qmark "see https://i.redd.it/abc?amp=1") =
  "see https://i.redd.it/abc?amp=1".
Proof. apply split_join_roundtrip. discriminate. Defined.

Lemma strip_url_path_witness :
  strip_url ("https://" ++ "i.redd.it/abc" ++ "?amp=1") = Ok "i.redd.it/abc".
Proof.
  apply strip_url_path.
  - vm_compute. reflexivity.
  - vm_compute. reflexivity.
  - right. exists "amp=1". reflexivity.
Defined.

Lemma inline_media_pattern_needs_blank_line_witness :
  contains blank_line ("Look:" ++ blank_line ++ "![cat](abc)") = true.
Proof. apply inline_media_pattern_needs_blank_line. vm_compute. reflexivity. Defined.

Lemma inline_media_pattern_paragraph_witness :
  re_search INLINE_MEDIA_PATTERN ("Hello" ++ blank_line ++ String "W" "orld") = true.
Proof.
  apply inline_media_pattern_paragraph.
  - vm_compute. reflexivity.
  - vm_compute. reflexivity.
Defined.

Lemma inline_media_pattern_image_link_witness :
  re_search INLINE_MEDIA_PATTERN
    ("Look:" ++ blank_line ++ "![" ++ "cat" ++ "](https://" ++ "i" ++ ".redd.it" ++
     "/abc.png)") = true.
Proof.
  apply inline_media_pattern_image_link.
  - vm_compute. reflexivity.
  - apply elem_of_cons. left. reflexivity.
Defined.

Lemma edit_plain_text_witness :
  edit pop_first (re_search INLINE_MEDIA_PATTERN) (fun b _ => Ok b) im_path (fun _ => [])
    (fun _ => "") sample_self "Fixed a typo." true [] =
  ([PostEdit (mk_edit_data "t1_abc" true (Text "Fixed a typo."))], Ok tt).
Proof. apply edit_plain_text. vm_compute. reflexivity. Defined.

Lemma edit_inline_media_requests_witness :
  edit pop_first (fun _ => false)
    (fun b vs => if decide (vs = [("image1", "cat.png")]) then Ok b
                 else Err (KeyError "image1"))
    im_path (fun _ => [sample_link_block]) (fun _ => "json") sample_self "{image1}" false
    [("image1", mk_inline_media "cat.png" None)] =
  ([UploadInlineMedia (mk_inline_media "cat.png" None); ConvertToFancypants "{image1}";
    PostEdit (mk_edit_data "t1_abc" true (RichtextJson "json"))], Ok tt) /\
  edit pop_first (fun _ => false) (fun _ _ => Err (KeyError "x")) im_path
    (fun _ => [sample_link_block]) (fun _ => "json") sample_self "{x}" true
    [("image1", mk_inline_media "cat.png" None)] =
  ([UploadInlineMedia (mk_inline_media "cat.png" None)], Err (KeyError "x")).
Proof.
  split.
  - apply (proj2 (edit_inline_media_requests pop_first (fun _ => false)
                    (fun b vs => if decide (vs = [("image1", "cat.png")]) then Ok b
                                 else Err (KeyError "image1"))
                    im_path (fun _ => [sample_link_block]) (fun _ => "json") sample_self
                    "{image1}" [("image1", mk_inline_media "cat.png" None)] false
                    ltac:(discriminate))).
    vm_compute. reflexivity.
  - apply (proj1 (edit_inline_media_requests pop_first (fun _ => false)
                    (fun _ _ => Err (KeyError "x")) im_path (fun _ => [sample_link_block])
                    (fun _ => "json") sample_self "{x}"
                    [("image1", mk_inline_media "cat.png" None)] true
                    ltac:(discriminate))).
    reflexivity.
Defined.

Lemma edit_posts_reconciled_document_witness :
  edit pop_first (fun _ => true) (fun b _ => Ok b) im_path (fun _ => [sample_link_block])
    (fun d => default "" (head d ≫= el_id)) sample_self "x" true [] =
  ([ConvertToFancypants "x"; PostEdit (mk_edit_data "t1_abc" true (RichtextJson "abc"))],
   Ok tt).
Proof.
  rewrite (edit_posts_reconciled_document pop_first (fun _ => true) (fun b _ => Ok b) im_path
             (fun _ => [sample_link_block]) (fun d => default "" (head d ≫= el_id))
             sample_self "x" [] "x" []).
  - vm_compute. reflexivity.
  - reflexivity.
  - vm_compute. reflexivity.
Defined.

Lemma reconcile_prefix_error_witness :
  _replace_richtext_links pop_first sample_self
    [sample_link_block; sample_bad_leaf; sample_page_block] =
  (Err (AssertionError schema_msg),
   app (snd (_replace_richtext_links pop_first sample_self
               (take 2 [sample_link_block; sample_bad_leaf; sample_page_block])))
       (drop 2 [sample_link_block; sample_bad_leaf; sample_page_block])).
Proof. apply reconcile_prefix_error. vm_compute. reflexivity. Defined.

(** A paragraph whose only link shows its own URL. *)
Lemma reconcile_block_without_content_witness :
  fst (_replace_richtext_links pop_first sample_self
         (snd (_replace_richtext_links pop_first sample_self
                 [mk_element (Some "par") None
                    (CList [mk_item (Some "link") (Some (media_url "abc"))
                              (Some (media_url "abc"))])]))) = Err TypeError.
Proof.
  destruct (reconcile_block_without_content pop_first sample_self sample_media_metadata
              (snd (_replace_richtext_links pop_first sample_self
                      [mk_element (Some "par") None
                         (CList [mk_item (Some "link") (Some (media_url "abc"))
                                   (Some (media_url "abc"))])]))
              0 (mk_element (Some "img") (Some "abc") CNone)) as [_ H].
  - reflexivity.
  - vm_compute. reflexivity.
  - reflexivity.
  - apply H. vm_compute. reflexivity.
Defined.

Lemma reconcile_link_without_url_witness :
  fst (_replace_richtext_links pop_first sample_self
         [mk_element (Some "par") None
            (CList [mk_item (Some "text") None (Some "hi");
                    mk_item (Some "link") None (Some "x")])]) = Err (KeyError "u").
Proof.
  destruct (reconcile_link_without_url pop_first sample_self sample_media_metadata
              [mk_element (Some "par") None
                 (CList [mk_item (Some "text") None (Some "hi");
                         mk_item (Some "link") None (Some "x")])] 0
              (mk_element (Some "par") None
                 (CList [mk_item (Some "text") None (Some "hi");
                         mk_item (Some "link") None (Some "x")]))
              [mk_item (Some "text") None (Some "hi"); mk_item (Some "link") None (Some "x")]
              (mk_item (Some "link") None (Some "x"))) as [_ H].
  - reflexivity.
  - reflexivity.
  - reflexivity.
  - right. left.
  - reflexivity.
  - reflexivity.
  - apply (H [mk_item (Some "text") None (Some "hi")] []).
    + reflexivity.
    + intros x Hx. apply elem_of_cons in Hx as [->|Hx]; [discriminate|].
      by apply elem_of_nil in Hx.
    + vm_compute. reflexivity.
Defined.

Lemma reconcile_last_matching_link_witness :
  exists mid kind,
    mid ∈ url_tokens "i.redd.it/xyz" /\
    <["xyz" := Some "RedditVideo"]> sample_media_metadata !! mid ≫= mapped_kind = Some kind /\
    snd (_replace_richtext_links pop_first
           (mk_editable (Some (<["xyz" := Some "RedditVideo"]> sample_media_metadata))
              "t1_abc" true)
           [mk_element (Some "par") None
              (CList [mk_item (Some "link") (Some (media_url "abc")) (Some "first");
                      mk_item (Some "link") (Some (media_url "xyz")) (Some "second");
                      mk_item (Some "text") None (Some "end")])]) !! 0 =
    Some (mk_element (Some kind) (Some mid)
            (if decide ("second" = media_url "xyz") then CNone else CStr "second")).
Proof.
  apply (reconcile_last_matching_link pop_first
           (mk_editable (Some (<["xyz" := Some "RedditVideo"]> sample_media_metadata))
              "t1_abc" true)
           (<["xyz" := Some "RedditVideo"]> sample_media_metadata) _ 0
           (mk_element (Some "par") None
              (CList [mk_item (Some "link") (Some (media_url "abc")) (Some "first");
                      mk_item (Some "link") (Some (media_url "xyz")) (Some "second");
                      mk_item (Some "text") None (Some "end")]))
           [mk_item (Some "link") (Some (media_url "abc")) (Some "first")]
           [mk_item (Some "text") None (Some "end")]).
  - exact pop_first_spec.
  - reflexivity.
  - reflexivity.
  - reflexivity.
  - vm_compute. reflexivity.
  - exists "xyz". split.
    + vm_compute. right. right. right. left.
    + vm_compute. eexists. reflexivity.
  - intros x Hx. apply elem_of_cons in Hx as [->|Hx]; [discriminate|].
    by apply elem_of_nil in Hx.
  - vm_compute. reflexivity.
Defined.

Lemma reconcile_descriptor_without_kind_witness :
  exists key, _replace_richtext_links pop_first
    (mk_editable (Some {["abc" := None]}) "t1_abc" true) [sample_link_block] =
  (Err (KeyError key), [sample_link_block]).
Proof.
  apply (reconcile_descriptor_without_kind pop_first _ {["abc" := None]} _ "abc").
  - reflexivity.
  - vm_compute. reflexivity.
Defined.
